(** * sphinxwrapper: the [PocketSphinx] decoder subclass

    A shallow embedding of [sphinxwrapper/pocketsphinx_wrap.py]: the
    utterance-state tracker, [process_audio], [batch_process], the
    keyword-list provisioner [set_kws_list] and the two callback slots.

    The wrapped [pocketsphinx.Decoder] superclass, the temporary-file
    directory and the user's callbacks are the environment of the class.
    The superclass is an interface ([Decoder]) over an abstract decoder
    state; the disk is a finite map from paths to contents; every call that
    leaves the class (a superclass method, a callback) is appended to a log,
    so that "the decoder was (not) called" and "the callback was invoked"
    are statements about that log. *)

From Stdlib Require Import ZArith Strings.Byte.
From stdpp Require Import gmap strings list fin_maps infinite pretty.

Open Scope string_scope.

(** ** Python values *)

(** The values that reach the class from its callers: callback-slot
    assignments, keyword thresholds, and the hypotheses handed back by the
    decoder.  [VFloat m e] is the float [m * 10^e]; [VFun f] is a function
    object; [VCallable o truth] is an instance of a class that defines
    [__call__], with the truth value its [__bool__] or [__len__] gives it
    (a [list] subclass with [__call__] is callable and, when empty, false);
    [VObj o] is any other (non-callable, non-numeric) object, such as a SWIG
    [Hypothesis]. *)
Inductive pyval : Type :=
| VNone
| VBool (b : bool)
| VInt (z : Z)
| VFloat (m e : Z)
| VStr (s : string)
| VFun (f : nat)
| VCallable (o : nat) (truth : bool)
| VObj (o : nat).

#[global] Instance pyval_eq_dec : EqDecision pyval.
Proof. solve_decision. Defined.

(** Python truth value, as tested by [if x:] and [not x]; function objects
    and plain objects are true, a callable object is what its class says. *)
Definition truthy (v : pyval) : bool :=
  match v with
  | VNone => false
  | VBool b => b
  | VInt z => negb (z =? 0)%Z
  | VFloat m _ => negb (m =? 0)%Z
  | VStr s => negb (String.eqb s "")
  | VFun _ => true
  | VCallable _ truth => truth
  | VObj _ => true
  end.

(** The builtin [callable]. *)
Definition callable (v : pyval) : bool :=
  match v with
  | VFun _ | VCallable _ _ => true
  | _ => false
  end.

(** [isinstance(v, numbers.Number)]; [bool] is a subclass of [int]. *)
Definition is_number (v : pyval) : bool :=
  match v with
  | VBool _ | VInt _ | VFloat _ _ => true
  | _ => false
  end.

(** ** Exceptions *)

Inductive exn : Type :=
| PocketSphinxError (msg : string)
| ConfigError (msg : string)
| TypeError (msg : string)
| OSError (msg : string)
| DecoderError (msg : string).

#[global] Instance exn_eq_dec : EqDecision exn.
Proof. solve_decision. Defined.

(** ** Utterance-state sentinels *)

(** [_UTT_IDLE], [_UTT_STARTED] and [_UTT_ENDED] are three [object()]
    instances created in the class body; [==] on them is object identity.
    An object is modelled by its identity. *)
Definition objid : Type := positive.

Definition _UTT_IDLE : objid := 1%positive.
Definition _UTT_STARTED : objid := 2%positive.
Definition _UTT_ENDED : objid := 3%positive.

(** ** The environment: audio buffers, the disk, the superclass *)

Definition audio_buffer : Type := list byte.

(** The files on disk: path to contents. *)
Abbreviation disk := (gmap string string).

(** Everything the class does to its environment, in program order. *)
Inductive event : Type :=
| EStartUtt
| EEndUtt
| EProcessRaw (buf : audio_buffer) (no_search full_utterance : bool)
| EGetInSpeech (r : bool)
| EHyp (h : pyval)
| ESetKws (name path : string)
| ESetSearch (name : string)
| EGetSearch
| ECall (f : pyval) (args : list pyval).

(** The methods of [pocketsphinx.Decoder] that the subclass calls through
    [super] or inherits, over an abstract decoder state [D].  The queries
    [get_in_speech], [hyp] and [get_search] read the state; [set_kws] and
    [set_search] are the calls that may reject their argument, with the
    message of the error the engine raises; [set_kws] is given the disk,
    since it opens the file at the path it receives. *)
Class Decoder (D : Type) : Type := {
  dec_start_utt : D -> D;
  dec_end_utt : D -> D;
  dec_process_raw : audio_buffer -> bool -> bool -> D -> D;
  dec_get_in_speech : D -> bool;
  dec_hyp : D -> pyval;
  dec_set_kws : string -> string -> disk -> D -> string + D;
  dec_set_search : string -> D -> string + D;
  dec_get_search : D -> string;
  (** the builtin [str], as used by the [%s] conversion *)
  py_str : pyval -> string
}.

(** ** The instance, the world, and the monad of method bodies *)

(** A method either returns a value or raises; in both cases the mutations
    made so far stay (Python does not roll back on [raise]). *)
Inductive result (A : Type) : Type :=
| Return (a : A)
| Raise (e : exn).
Arguments Return {A} a.
Arguments Raise {A} e.

Section PocketSphinx.

Context {D : Type} `{Decoder D}.

(** The attributes of a [PocketSphinx] instance; [super_] is the state held
    by the [Decoder] superclass. *)
Record PocketSphinx : Type := mkPocketSphinx {
  _speech_start_callback : pyval;
  _hypothesis_callback : pyval;
  _utterance_state : objid;
  super_ : D
}.

Record world : Type := mkWorld {
  self : PocketSphinx;
  files : disk;
  log : list event
}.

Definition M (A : Type) : Type := world -> result A * world.

Definition ret {A} (a : A) : M A := fun w => (Return a, w).
Definition raise {A} (e : exn) : M A := fun w => (Raise e, w).
Definition bind {A B} (m : M A) (k : A -> M B) : M B :=
  fun w => match m w with
           | (Return a, w') => k a w'
           | (Raise e, w') => (Raise e, w')
           end.

Notation "x <- m ;; k" := (bind m (fun x => k))
  (at level 200, m at level 99, k at level 200).
Notation "m ;;; k" := (bind m (fun _ => k))
  (at level 200, k at level 200, right associativity).

Definition get_self : M PocketSphinx := fun w => (Return (self w), w).
Definition put_self (s : PocketSphinx) : M unit :=
  fun w => (Return tt, mkWorld s (files w) (log w)).
Definition get_files : M disk := fun w => (Return (files w), w).
Definition put_files (d : disk) : M unit :=
  fun w => (Return tt, mkWorld (self w) d (log w)).
Definition emit (e : event) : M unit :=
  fun w => (Return tt, mkWorld (self w) (files w) (log w ++ [e])).

Definition set_utterance_state (u : objid) : M unit :=
  s <- get_self ;;
  put_self (mkPocketSphinx (_speech_start_callback s) (_hypothesis_callback s)
                           u (super_ s)).

Definition set_super (d : D) : M unit :=
  s <- get_self ;;
  put_self (mkPocketSphinx (_speech_start_callback s) (_hypothesis_callback s)
                           (_utterance_state s) d).

(** ** Superclass calls *)

Definition super_start_utt : M unit :=
  s <- get_self ;; emit EStartUtt ;;; set_super (dec_start_utt (super_ s)).

Definition super_end_utt : M unit :=
  s <- get_self ;; emit EEndUtt ;;; set_super (dec_end_utt (super_ s)).

Definition process_raw (buf : audio_buffer) (no_search full_utterance : bool)
  : M unit :=
  s <- get_self ;;
  emit (EProcessRaw buf no_search full_utterance) ;;;
  set_super (dec_process_raw buf no_search full_utterance (super_ s)).

Definition super_get_in_speech : M bool :=
  s <- get_self ;;
  let r := dec_get_in_speech (super_ s) in
  emit (EGetInSpeech r) ;;; ret r.

Definition hyp : M pyval :=
  s <- get_self ;;
  let h := dec_hyp (super_ s) in
  emit (EHyp h) ;;; ret h.

Definition set_kws (name path : string) : M unit :=
  s <- get_self ;;
  d <- get_files ;;
  emit (ESetKws name path) ;;;
  match dec_set_kws name path d (super_ s) with
  | inl msg => raise (DecoderError msg)
  | inr d' => set_super d'
  end.

Definition get_search : M string :=
  s <- get_self ;; emit EGetSearch ;;; ret (dec_get_search (super_ s)).

Definition set_search (name : string) : M unit :=
  s <- get_self ;;
  emit (ESetSearch name) ;;;
  match dec_set_search name (super_ s) with
  | inl msg => raise (DecoderError msg)
  | inr d' => set_super d'
  end.

(** Calling a Python callable: the call is all the class sees of it. *)
Definition call (f : pyval) (args : list pyval) : M unit :=
  emit (ECall f args).

(** ** Utterance state tracker *)

(** The properties [utt_idle], [utt_started] and [utt_ended] read the
    instance and change nothing; [gets] is such a read inside a method. *)
Definition utt_idle (s : PocketSphinx) : bool :=
  bool_decide (_utterance_state s = _UTT_IDLE).

Definition utt_started (s : PocketSphinx) : bool :=
  bool_decide (_utterance_state s = _UTT_STARTED).

Definition utt_ended (s : PocketSphinx) : bool :=
  bool_decide (_utterance_state s = _UTT_ENDED).

Definition gets {A} (f : PocketSphinx -> A) : M A :=
  fun w => (Return (f (self w)), w).

Definition start_utt : M unit :=
  e <- gets utt_ended ;;
  if e : bool then
    super_start_utt ;;;
    set_utterance_state _UTT_IDLE
  else ret tt.

Definition end_utt : M unit :=
  e <- gets utt_ended ;;
  if negb e then
    super_end_utt ;;;
    set_utterance_state _UTT_ENDED
  else ret tt.

Definition get_in_speech : M bool :=
  in_speech <- super_get_in_speech ;;
  i <- gets utt_idle ;;
  (if in_speech && i then set_utterance_state _UTT_STARTED else ret tt) ;;;
  ret in_speech.

(** Aliases of the utterance methods and properties. *)
Definition end_utterance : M unit := end_utt.
Definition start_utterance : M unit := start_utt.
Definition utterance_started := utt_started.
Definition utterance_idle := utt_idle.
Definition utterance_ended := utt_ended.

(** ** Callback registry *)

Definition speech_start_callback (s : PocketSphinx) : pyval :=
  _speech_start_callback s.

Definition hypothesis_callback (s : PocketSphinx) : pyval :=
  _hypothesis_callback s.

Definition is_none (v : pyval) : bool :=
  match v with VNone => true | _ => false end.

Definition set_speech_start_callback (value : pyval) : M unit :=
  if negb (callable value) && negb (is_none value) then
    raise (TypeError "value must be callable or None")
  else
    s <- get_self ;;
    put_self (mkPocketSphinx value (_hypothesis_callback s)
                             (_utterance_state s) (super_ s)).

Definition set_hypothesis_callback (value : pyval) : M unit :=
  if negb (callable value) && negb (is_none value) then
    raise (TypeError "value must be callable or None")
  else
    s <- get_self ;;
    put_self (mkPocketSphinx (_speech_start_callback s) value
                             (_utterance_state s) (super_ s)).

(** ** Audio frame processor *)

(** [process_audio] returns [VNone] where the Python body falls off its end.
    The property [utt_started] is read once for the [if] and the [elif]:
    nothing runs between the two tests. *)
Definition process_audio (buf : audio_buffer)
    (no_search full_utterance use_callbacks : bool) : M pyval :=
  e <- gets utt_ended ;;
  (if e : bool then start_utt else ret tt) ;;;
  process_raw buf no_search full_utterance ;;;
  was_idle <- gets utt_idle ;;
  in_speech <- get_in_speech ;;
  started <- gets utt_started ;;
  if in_speech && was_idle && started then
    cb <- gets speech_start_callback ;;
    (if use_callbacks && truthy cb then call cb [] else ret tt) ;;;
    ret VNone
  else if negb in_speech && started then
    end_utt ;;;
    h <- hyp ;;
    cb <- gets hypothesis_callback ;;
    if use_callbacks && truthy cb then
      call cb [h] ;;; ret VNone
    else if negb use_callbacks then ret h
    else ret VNone
  else ret VNone.

(** ** Batch driver *)

(** The [for] loop of [batch_process], with the local [result] as an
    accumulator. *)
Fixpoint batch_loop (buffers : list audio_buffer)
    (no_search full_utterance use_callbacks : bool) (result : pyval)
  : M pyval :=
  match buffers with
  | [] => ret result
  | buf :: rest =>
      if use_callbacks then
        process_audio buf no_search full_utterance use_callbacks ;;;
        batch_loop rest no_search full_utterance use_callbacks result
      else
        processing_result <-
          process_audio buf no_search full_utterance use_callbacks ;;
        batch_loop rest no_search full_utterance use_callbacks
          (if truthy processing_result then processing_result else result)
  end.

Definition batch_process (buffers : list audio_buffer)
    (no_search full_utterance use_callbacks : bool) : M pyval :=
  batch_loop buffers no_search full_utterance use_callbacks VNone.

(** ** Keyword search provisioner *)

(** The [kws_list] argument: [None], a dict, a list of pairs or a tuple of
    pairs.  A dict is given by its items in iteration order. *)
Inductive kws_arg : Type :=
| KNone
| KDict (items : list (string * pyval))
| KList (pairs : list (string * pyval))
| KTuple (pairs : list (string * pyval)).

(** Truth value of the argument: [None] and empty containers are false. *)
Definition kws_truthy (k : kws_arg) : bool :=
  match k with
  | KNone => false
  | KDict [] | KList [] | KTuple [] => false
  | _ => true
  end.

(** [d[k] = v] on the items of a dict: an existing key keeps its place and
    takes the new value, a new key goes last. *)
Fixpoint dict_set (k : string) (v : pyval) (d : list (string * pyval))
  : list (string * pyval) :=
  match d with
  | [] => [(k, v)]
  | (k', v') :: r =>
      if String.eqb k k' then (k', v) :: r else (k', v') :: dict_set k v r
  end.

(** [dict(pairs)]. *)
Definition dict_of_pairs (pairs : list (string * pyval))
  : list (string * pyval) :=
  fold_left (fun d kv => dict_set (fst kv) (snd kv) d) pairs [].

(** The mapping iterated by the [for] loop: a list or tuple goes through
    [dict], a dict is used as it is. *)
Definition normalize (k : kws_arg) : list (string * pyval) :=
  match k with
  | KNone => []
  | KDict d => d
  | KList l | KTuple l => dict_of_pairs l
  end.

(** The object returned by [tempfile.NamedTemporaryFile(mode="a",
    delete=False)]: the path of the file it created and the text written
    but not yet flushed. *)
Record tempfile : Type := mkTempfile {
  tf_name : string;
  tf_buffer : string
}.

(** A new, empty file under a name no file on disk has. *)
Definition NamedTemporaryFile : M tempfile :=
  d <- get_files ;;
  let p := fresh (dom d) in
  put_files (<[p := ""]> d) ;;;
  ret (mkTempfile p "").

Definition tf_write (tf : tempfile) (text : string) : tempfile :=
  mkTempfile (tf_name tf) (tf_buffer tf +:+ text).

(** [tf.close()] flushes the buffer to the file. *)
Definition tf_close (tf : tempfile) : M unit :=
  d <- get_files ;;
  put_files (<[tf_name tf := tf_buffer tf]> d).

Definition os_remove (path : string) : M unit :=
  d <- get_files ;;
  match d !! path with
  | Some _ => put_files (delete path d)
  | None => raise (OSError "No such file or directory")
  end.

Definition newline : string := String (Ascii.ascii_of_nat 10) EmptyString.

Definition not_a_number_msg (threshold : pyval) (words : string) : string :=
  "threshold value of '" +:+ py_str threshold +:+ "' for words '" +:+ words
  +:+ "' is not a number".

(** The [for words, threshold in kws_list.items()] loop. *)
Fixpoint write_items (items : list (string * pyval)) (tf : tempfile)
  : M tempfile :=
  match items with
  | [] => ret tf
  | (words, threshold) :: rest =>
      if negb (is_number threshold) then
        raise (PocketSphinxError (not_a_number_msg threshold words))
      else
        write_items rest
          (tf_write tf (words +:+ " /" +:+ py_str threshold +:+ "/" +:+ newline))
  end.

Definition set_kws_list (name : string) (kws_list : kws_arg) : M unit :=
  if negb (kws_truthy kws_list) then ret tt
  else
    let kws_list := normalize kws_list in
    tf <- NamedTemporaryFile ;;
    tf <- write_items kws_list tf ;;
    tf_close tf ;;;
    set_kws name (tf_name tf) ;;;
    os_remove (tf_name tf).

(** ** Active search *)

Definition active_search : M string := get_search.

Definition set_active_search (value : string) : M unit := set_search value.

(** ** Construction *)

(** [pocketsphinx.Config] and the helpers of [sphinxwrapper/config.py] that
    [__init__] calls, over an abstract configuration [C]; [get_string]
    gives [None] where Python gives [None]. *)
Class ConfigEnv (C : Type) : Type := {
  search_arguments_set : C -> list string;
  set_lm_path : C -> C;
  set_hmm_and_dict_paths : C -> C;
  get_string : C -> string -> option string;
  dec_init : C -> D
}.

Definition str_truthy (o : option string) : bool :=
  match o with
  | Some s => negb (String.eqb s "")
  | None => false
  end.

Definition __init__ {C : Type} `{ConfigEnv C} (config : C)
  : exn + PocketSphinx :=
  let search_args_set := search_arguments_set config in
  let checked : exn + C :=
    if bool_decide (length search_args_set = 0) then
      inr (set_lm_path config)
    else if bool_decide (1 < length search_args_set) then
      inl (ConfigError
             "more than one search argument was set in the Config object")
    else inr config in
  match checked with
  | inl e => inl e
  | inr config =>
      let config :=
        if negb (str_truthy (get_string config "-hmm")
                 && str_truthy (get_string config "-dict"))
        then set_hmm_and_dict_paths config else config in
      inr (mkPocketSphinx VNone VNone _UTT_ENDED (dec_init config))
  end.

(** ** Sessions *)

(** The operations a caller may apply to an instance: the methods and
    property assignments of the class, and the inherited [process_raw] and
    [hyp] for callers that drive the decoder themselves. *)
Inductive operation : Type :=
| OpStartUtt
| OpEndUtt
| OpGetInSpeech
| OpProcessAudio (buf : audio_buffer)
    (no_search full_utterance use_callbacks : bool)
| OpBatchProcess (buffers : list audio_buffer)
    (no_search full_utterance use_callbacks : bool)
| OpSetKwsList (name : string) (kws_list : kws_arg)
| OpSetSpeechStartCallback (value : pyval)
| OpSetHypothesisCallback (value : pyval)
| OpActiveSearch
| OpSetActiveSearch (value : string)
| OpProcessRaw (buf : audio_buffer) (no_search full_utterance : bool)
| OpHyp.

(** The world after an operation, whether it returned or raised. *)
Definition run (o : operation) (w : world) : world :=
  match o with
  | OpStartUtt => snd (start_utt w)
  | OpEndUtt => snd (end_utt w)
  | OpGetInSpeech => snd (get_in_speech w)
  | OpProcessAudio b ns fu uc => snd (process_audio b ns fu uc w)
  | OpBatchProcess bs ns fu uc => snd (batch_process bs ns fu uc w)
  | OpSetKwsList n k => snd (set_kws_list n k w)
  | OpSetSpeechStartCallback v => snd (set_speech_start_callback v w)
  | OpSetHypothesisCallback v => snd (set_hypothesis_callback v w)
  | OpActiveSearch => snd (active_search w)
  | OpSetActiveSearch v => snd (set_active_search v w)
  | OpProcessRaw b ns fu => snd (process_raw b ns fu w)
  | OpHyp => snd (hyp w)
  end.

(** The worlds a session can be in: a constructed instance, then any
    operations. *)
Inductive reachable {C : Type} `{ConfigEnv C} : world -> Prop :=
| reachable_init (config : C) (s : PocketSphinx) (d : disk) :
    __init__ config = inr s -> reachable (mkWorld s d [])
| reachable_run (o : operation) (w : world) :
    reachable w -> reachable (run o w).

End PocketSphinx.

Arguments PocketSphinx D : clear implicits.
Arguments world D : clear implicits.

(** ** A scripted decoder *)

(** A stand-in for the recognition engine, for running the class on
    concrete audio: a buffer is speech when it holds a non-zero byte; the
    decoder collects the non-zero bytes heard since the utterance began and
    reports them as its hypothesis ([None] when it heard nothing).
    [set_kws] rejects the empty search name and a path with no file. *)
Module Scripted.

Record state : Type := mkState {
  in_speech : bool;
  heard : list byte;
  searches : list string
}.

Definition is_sound (b : byte) : bool := negb (Byte.eqb b x00).

Definition start (d : state) : state := mkState false [] (searches d).

Definition feed (buf : audio_buffer) (d : state) : state :=
  mkState (existsb is_sound buf) (heard d ++ filter (fun b => is_sound b) buf)
          (searches d).

Definition hypothesis (d : state) : pyval :=
  match heard d with
  | [] => VNone
  | bs => VStr (String.string_of_list_byte bs)
  end.

Definition load_kws (name path : string) (fs : disk) (d : state)
  : string + state :=
  if String.eqb name "" then inl "invalid search name"
  else match fs !! path with
       | None => inl "cannot open keyword file"
       | Some _ => inr (mkState (in_speech d) (heard d) (name :: searches d))
       end.

Definition activate (name : string) (d : state) : string + state :=
  if existsb (String.eqb name) (searches d) then inr d
  else inl "no such search".

Definition str (v : pyval) : string :=
  match v with
  | VNone => "None"
  | VBool true => "True"
  | VBool false => "False"
  | VInt z => pretty z
  | VFloat m e => pretty m +:+ "e" +:+ pretty e
  | VStr s => s
  | VFun _ => "<function>"
  | VCallable _ _ => "<callable>"
  | VObj _ => "<object>"
  end.

#[global] Instance decoder : Decoder state := {
  dec_start_utt := start;
  dec_end_utt := fun d => d;
  dec_process_raw := fun buf _ _ d => feed buf d;
  dec_get_in_speech := in_speech;
  dec_hyp := hypothesis;
  dec_set_kws := load_kws;
  dec_set_search := activate;
  dec_get_search := fun d => hd "" (searches d);
  py_str := str
}.

(** A configuration is the list of the search arguments set in it. *)
#[global] Instance config_env : ConfigEnv (list string) := {
  search_arguments_set := fun c => c;
  set_lm_path := fun c => "-lm" :: c;
  set_hmm_and_dict_paths := fun c => c;
  get_string := fun c k => if existsb (String.eqb k) c then Some k else None;
  dec_init := fun _ => mkState false [] []
}.

(** A freshly constructed instance, on an empty disk. *)
Definition fresh_world : world state :=
  mkWorld (mkPocketSphinx VNone VNone _UTT_ENDED (mkState false [] [])) ∅ [].

Definition silence : audio_buffer := [x00; x00].
Definition speech (b : byte) : audio_buffer := [b; b].

(** Silence, an utterance, then a second utterance. *)
Definition two_utterances : list audio_buffer :=
  [silence; speech x61; silence; speech x62; speech x63; silence].

Definition kw_bad : kws_arg := KDict [("test", VStr "bad")].
Definition kw_hello : kws_arg := KDict [("hello world", VFloat 1 (-20))].

(** An instance whose two slots hold function objects. *)
Definition with_callbacks : world state :=
  run (OpSetHypothesisCallback (VFun 2))
    (run (OpSetSpeechStartCallback (VFun 1)) fresh_world).

(** That instance waiting for speech. *)
Definition listening : world state :=
  run (OpProcessAudio silence false false true) with_callbacks.

(** That instance after silence and then speech: mid-utterance. *)
Definition speaking : world state :=
  run (OpProcessAudio (speech x61) false false true) listening.

(** Mid-utterance, with the hypothesis slot cleared. *)
Definition speaking_unobserved : world state :=
  run (OpSetHypothesisCallback VNone) speaking.

End Scripted.

(** ** A configuration with options *)

(** A stand-in for [pocketsphinx.Config] and [sphinxwrapper/config.py], for
    running the constructor: a configuration maps option names to strings,
    the search arguments are the search options with a non-empty value, and
    the path helpers fill in default paths. *)
Module Options.

Definition search_options : list string :=
  ["-lm"; "-jsgf"; "-kws"; "-keyphrase"; "-fsg"; "-allphone"; "-lmctl"].

Definition is_set (c : gmap string string) (k : string) : bool :=
  match c !! k with
  | Some v => negb (String.eqb v "")
  | None => false
  end.

#[global] Instance config_env : ConfigEnv (D:=Scripted.state)
    (gmap string string) := {
  search_arguments_set := fun c => List.filter (is_set c) search_options;
  set_lm_path := fun c => <["-lm" := "model/en-us.lm.bin"]> c;
  set_hmm_and_dict_paths := fun c =>
    <["-dict" := "model/cmudict-en-us.dict"]> (<["-hmm" := "model/en-us"]> c);
  get_string := fun c k => c !! k;
  dec_init := fun c =>
    Scripted.mkState false []
      (List.filter (is_set c) search_options)
}.

(** A keyword search over the user's own model. *)
Definition own_model : gmap string string :=
  <["-kws" := "words.list"]>
    (<["-hmm" := "my/hmm"]> (<["-dict" := "my/dict"]> ∅)).

(** Two search modes at once. *)
Definition ambiguous : gmap string string :=
  <["-kws" := "words.list"]> (<["-jsgf" := "grammar.gram"]> ∅).

End Options.

(** ** More worlds and inputs for the scripted decoder *)

Module Fixtures.

Import Scripted.

(** A fresh instance on a disk that already holds a file under the name the
    next temporary file would otherwise get. *)
Definition cluttered : world state :=
  mkWorld (self fresh_world) {["0" := "keep me"]} [].

(** A list of pairs in which a later pair repeats the phrase of the first
    with a numeric threshold. *)
Definition kw_pairs : list (string * pyval) :=
  [("go", VStr "bad"); ("stop", VInt 1); ("go", VFloat 1 (-10))].




(** Configurations: a keyword search with no model paths, model paths
    with no search, and nothing at all. *)
Definition kws_only : gmap string string := {["-kws" := "words.list"]}.

Definition model_only : gmap string string :=
  <["-hmm" := "my/hmm"]> {["-dict" := "my/dict"]}.

Definition nothing_set : gmap string string := ∅.

End Fixtures.


(** ** Vocabulary of the statements *)

(** The callback invocations in a log, in order. *)
Definition calls (l : list event) : list (pyval * list pyval) :=
  omap (fun e => match e with ECall f args => Some (f, args) | _ => None end) l.

(** The [set_kws] registrations attempted in a log. *)
Definition registrations (l : list event) : list (string * string) :=
  omap (fun e => match e with ESetKws n p => Some (n, p) | _ => None end) l.

(** The last value of a list that Python takes for true, [None] if there is
    none. *)
Definition last_truthy (vs : list pyval) : pyval :=
  default VNone (last (filter (fun v => truthy v = true) vs)).

(** The decoder's utterance flag, as the calls in a log determine it:
    [Some b] while [start_utt] and [end_utt] have alternated, with [b]
    telling whether an utterance is open; [None] once either was called
    twice in a row. *)
Definition track_event (o : option bool) (e : event) : option bool :=
  match o, e with
  | Some false, EStartUtt => Some true
  | Some true, EStartUtt => None
  | Some true, EEndUtt => Some false
  | Some false, EEndUtt => None
  | _, _ => o
  end.

Definition decoder_utterance (l : list event) : option bool :=
  fold_left track_event l (Some false).

(** The operations that are asked to use the callbacks. *)
Definition enables_callbacks (o : operation) : bool :=
  match o with
  | OpProcessAudio _ _ _ uc | OpBatchProcess _ _ _ uc => uc
  | _ => false
  end.

(** The value of key [k] in a sequence of pairs read from left to right:
    that of the last pair with this key. *)
Definition last_value (k : string) (pairs : list (string * pyval))
  : option pyval :=
  snd <$> last (filter (fun kv => fst kv = k) pairs).

Section Runs.

Context {D : Type} `{Decoder D}.

(** The line of the keyword-list file for one phrase, and the file for a
    mapping: one line per phrase, in iteration order. *)
Definition kws_line (kv : string * pyval) : string :=
  fst kv +:+ " /" +:+ py_str (snd kv) +:+ "/" +:+ newline.

Definition kws_text (items : list (string * pyval)) : string :=
  foldr (fun kv text => kws_line kv +:+ text) "" items.

(** [process_audio] applied to each buffer in turn, from [w]: the values
    the calls return, and the world they leave. *)
Fixpoint process_each (buffers : list audio_buffer)
    (no_search full_utterance use_callbacks : bool) (w : world D)
  : list pyval * world D :=
  match buffers with
  | [] => ([], w)
  | buf :: rest =>
      match process_audio buf no_search full_utterance use_callbacks w with
      | (Return v, w1) =>
          let (vs, w2) :=
            process_each rest no_search full_utterance use_callbacks w1 in
          (v :: vs, w2)
      | (Raise _, w1) => ([], w1)
      end
  end.


(** The world in which [process_audio] takes its [was_idle] snapshot: the
    utterance has been started if none was in progress, and the buffer has
    been fed to the decoder. *)
Definition at_snapshot (buf : audio_buffer) (no_search full_utterance : bool)
    (w : world D) : world D :=
  snd (bind (gets utt_ended) (fun e =>
       bind (if e : bool then start_utt else ret tt) (fun _ =>
       process_raw buf no_search full_utterance)) w).

(** What the setters and the constructor maintain: the tracker holds one of
    the three sentinels, and each callback slot holds [None] or a callable. *)
Definition slot_ok (v : pyval) : Prop := v = VNone \/ callable v = true.

Record invariant (s : PocketSphinx D) : Prop := mkInvariant {
  inv_state : _utterance_state s = _UTT_IDLE \/
              _utterance_state s = _UTT_STARTED \/
              _utterance_state s = _UTT_ENDED;
  inv_speech_start : slot_ok (_speech_start_callback s);
  inv_hypothesis : slot_ok (_hypothesis_callback s)
}.

(** The tracker agrees with the decoder's utterance flag. *)
Definition tracked (w : world D) : Prop :=
  invariant (self w) /\
  decoder_utterance (log w) = Some (negb (utt_ended (self w))).

(** Exactly one of three booleans is true. *)
Definition exactly_one (a b c : bool) : Prop :=
  (a = true /\ b = false /\ c = false) \/
  (a = false /\ b = true /\ c = false) \/
  (a = false /\ b = false /\ c = true).

End Runs.

(** * Properties *)

Ltac unfold_monad :=
  unfold call, set_utterance_state, set_super in *;
  unfold bind, ret, raise, gets, get_self, put_self, get_files, put_files,
    emit in *.

Ltac unfold_tracker :=
  unfold start_utterance, end_utterance, start_utt, end_utt, get_in_speech,
    super_start_utt, super_end_utt, super_get_in_speech, process_raw, hyp,
    utt_idle, utt_started, utt_ended in *.

Section Tracker.

Context {D : Type} `{Decoder D}.

Implicit Types (w : world D) (s : PocketSphinx D).

Lemma world_eta w : mkWorld (self w) (files w) (log w) = w.
Proof. by destruct w. Qed.

Lemma self_eta s :
  mkPocketSphinx (_speech_start_callback s) (_hypothesis_callback s)
                 (_utterance_state s) (super_ s) = s.
Proof. by destruct s. Qed.

(** C6. [start_utterance] in state Idle or Started, and [end_utterance] in
    state Ended, return normally and leave the whole world as it was: the
    tracker state, the decoder state and the log (so no decoder call was
    made).  Calling either method twice in a row is the same as calling it
    once, from any state. *)
Theorem utterance_guards_noop_idempotent w :
  (utt_idle (self w) = true \/ utt_started (self w) = true ->
   start_utterance w = (Return tt, w)) /\
  (utt_ended (self w) = true -> end_utterance w = (Return tt, w)) /\
  bind start_utterance (fun _ => start_utterance) w = start_utterance w /\
  bind end_utterance (fun _ => end_utterance) w = end_utterance w.
Proof.
  destruct w as [[c1 c2 u d] fs l].
  unfold_tracker; unfold_monad; simpl.
  repeat split.
  - intros [Hi | Hs]; case_bool_decide; subst;
      repeat case_bool_decide; simplify_eq/=; done.
  - intros He. by rewrite He.
  - repeat (case_bool_decide; simpl); simplify_eq/=; done.
  - repeat (case_bool_decide; simpl); simplify_eq/=; done.
Qed.

End Tracker.

Section Callbacks.

Context {D : Type} `{Decoder D}.

Implicit Types (w : world D) (s : PocketSphinx D).

(** C8. For each of the two slots: assigning [None] clears the slot,
    assigning a callable stores it (the other attributes, the disk and the
    log are untouched); assigning a value that is neither callable nor
    [None] raises [TypeError] out of the assignment and leaves the world,
    and with it the value stored before, as it was. *)
Theorem callback_setters_validate w (value : pyval) :
  (value = VNone \/ callable value = true ->
   set_speech_start_callback value w =
     (Return tt,
      mkWorld (mkPocketSphinx value (_hypothesis_callback (self w))
                 (_utterance_state (self w)) (super_ (self w)))
              (files w) (log w)) /\
   set_hypothesis_callback value w =
     (Return tt,
      mkWorld (mkPocketSphinx (_speech_start_callback (self w)) value
                 (_utterance_state (self w)) (super_ (self w)))
              (files w) (log w))) /\
  (value <> VNone -> callable value = false ->
   (exists msg, set_speech_start_callback value w = (Raise (TypeError msg), w)) /\
   (exists msg, set_hypothesis_callback value w = (Raise (TypeError msg), w))).
Proof.
  unfold set_speech_start_callback, set_hypothesis_callback.
  split.
  - intros [-> | Hc]; [done |]. by rewrite Hc.
  - intros Hn Hc. rewrite Hc.
    destruct value; try done; simpl; unfold raise; eauto.
Qed.

End Callbacks.

Section FrameProcessor.

Context {D : Type} `{Decoder D}.

Implicit Types (w : world D) (s : PocketSphinx D).

(** [process_audio] always returns: no path through it raises. *)
Lemma process_audio_returns buf ns fu uc w :
  exists v, fst (process_audio buf ns fu uc w) = Return v.
Proof.
  destruct w as [[c1 c2 u d] fs l].
  unfold process_audio; unfold_tracker; unfold_monad; simpl.
  repeat (case_bool_decide; simpl); simplify_eq/=;
    repeat (case_match; simpl in *; simplify_eq/=); eauto.
Qed.


(** C10. With [use_callbacks] true, [process_audio] returns [None] in every
    case.  In particular on the frame that ends an utterance with no
    hypothesis callback registered: the hypothesis is fetched from the
    decoder, no callback is invoked, and [None] is returned. *)
Theorem process_audio_callbacks_returns_none buf ns fu w :
  fst (process_audio buf ns fu true w) = Return VNone /\
  (utt_started (self w) = true ->
   dec_get_in_speech (dec_process_raw buf ns fu (super_ (self w))) = false ->
   hypothesis_callback (self w) = VNone ->
   log (snd (process_audio buf ns fu true w)) =
     (log w ++ [EProcessRaw buf ns fu; EGetInSpeech false; EEndUtt;
                EHyp (dec_hyp (dec_end_utt
                        (dec_process_raw buf ns fu (super_ (self w)))))])%list).
Proof.
  destruct w as [[c1 c2 u d0] fs l]; simpl. split.
  - unfold process_audio; unfold_tracker; unfold_monad; simpl.
    repeat (case_bool_decide; simpl); simplify_eq/=;
      repeat (case_match; simpl in *; simplify_eq/=); eauto.
  - unfold utt_started, hypothesis_callback; simpl.
    intros Hs%bool_decide_eq_true Hq ->. subst u.
    unfold process_audio; unfold_tracker; unfold_monad; simpl.
    rewrite Hq; simpl. by rewrite <- !app_assoc.
Qed.

End FrameProcessor.

Section Sessions.

Context {D : Type} `{Decoder D} {C : Type} `{!ConfigEnv (D:=D) C}.

Implicit Types (w : world D) (s : PocketSphinx D).

Lemma write_items_world items tf w : snd (write_items items tf w) = w.
Proof.
  revert tf. induction items as [| [words t] rest IH]; intros tf; simpl.
  - done.
  - destruct (is_number t); simpl; [apply IH | done].
Qed.

Lemma process_audio_invariant buf ns fu uc w :
  invariant (self w) -> invariant (self (snd (process_audio buf ns fu uc w))).
Proof.
  destruct w as [[c1 c2 u d] fs l]. intros [Hu H1 H2]; simpl in *.
  unfold process_audio; unfold_tracker; unfold_monad.
  destruct Hu as [-> | [-> | ->]]; simpl;
    repeat (case_match; simplify_eq/=); split; simpl; auto.
Qed.

Lemma batch_loop_invariant buffers ns fu uc acc w :
  invariant (self w) ->
  invariant (self (snd (batch_loop buffers ns fu uc acc w))).
Proof.
  revert acc w. induction buffers as [| buf rest IH]; intros acc w Hw; simpl.
  - done.
  - pose proof (process_audio_invariant buf ns fu uc w Hw) as Hp.
    destruct (process_audio_returns buf ns fu uc w) as [v Hv].
    destruct uc; unfold bind;
      destruct (process_audio buf ns fu _ w) as [r w1]; simpl in *; subst r;
      by apply IH.
Qed.

Lemma set_kws_list_invariant name kws w :
  invariant (self w) -> invariant (self (snd (set_kws_list name kws w))).
Proof.
  intros Hw. unfold set_kws_list.
  destruct (kws_truthy kws); simpl; [| done].
  unfold NamedTemporaryFile, tf_close, set_kws, os_remove; unfold_monad.
  simpl.
  match goal with |- context [write_items ?i ?t ?x] =>
    pose proof (write_items_world i t x) as Hx;
    destruct (write_items i t x) as [[tf' | e] wx] end;
    simpl in *; subst; simpl; [| done].
  destruct w as [[c1 c2 u d] fs l]; destruct Hw as [Hu H1 H2]; simpl in *.
  repeat (case_match; simpl in *; simplify_eq/=); by split.
Qed.

(** Every operation keeps the invariant. *)
Lemma run_invariant o w : invariant (self w) -> invariant (self (run o w)).
Proof.
  intros Hw. destruct o; simpl.
  - destruct w as [[c1 c2 u d] fs l]; destruct Hw as [Hu H1 H2].
    unfold_tracker; unfold_monad; simpl in *.
    case_bool_decide; simpl; split; simpl; auto.
  - destruct w as [[c1 c2 u d] fs l]; destruct Hw as [Hu H1 H2].
    unfold_tracker; unfold_monad; simpl in *.
    case_bool_decide; simpl; split; simpl; auto.
  - destruct w as [[c1 c2 u d] fs l]; destruct Hw as [Hu H1 H2].
    unfold_tracker; unfold_monad; simpl in *.
    destruct (dec_get_in_speech d); simpl;
      repeat (case_bool_decide; simpl); split; simpl; auto.
  - by apply process_audio_invariant.
  - by apply batch_loop_invariant.
  - by apply set_kws_list_invariant.
  - destruct w as [[c1 c2 u d] fs l]; destruct Hw as [Hu H1 H2].
    unfold set_speech_start_callback; unfold_monad; simpl in *.
    destruct value; simpl; split; simpl; auto; by (left + right).
  - destruct w as [[c1 c2 u d] fs l]; destruct Hw as [Hu H1 H2].
    unfold set_hypothesis_callback; unfold_monad; simpl in *.
    destruct value; simpl; split; simpl; auto; by (left + right).
  - by destruct w as [[c1 c2 u d] fs l], Hw.
  - destruct w as [[c1 c2 u d] fs l]; destruct Hw as [Hu H1 H2].
    unfold set_active_search, set_search; unfold_monad; simpl in *.
    by destruct (dec_set_search value d).
  - by destruct w as [[c1 c2 u d] fs l], Hw.
  - by destruct w as [[c1 c2 u d] fs l], Hw.
Qed.

Lemma init_invariant (config : C) s :
  __init__ config = inr s -> invariant s.
Proof.
  unfold __init__. intros Hi.
  repeat (case_match; simplify_eq/=); split; simpl; auto; by left.
Qed.

(** A session never leaves the invariant. *)
Lemma reachable_invariant w : reachable (C:=C) w -> invariant (self w).
Proof.
  induction 1 as [config s d Hi | o w _ IH].
  - simpl. by eapply init_invariant.
  - by apply run_invariant.
Qed.

Lemma invariant_exactly_one s :
  invariant s -> exactly_one (utt_idle s) (utt_started s) (utt_ended s).
Proof.
  intros [Hu _ _]. unfold exactly_one, utt_idle, utt_started, utt_ended.
  destruct Hu as [-> | [-> | ->]]; [left | right; left | right; right];
    by repeat split.
Qed.

(** C5. In every world a session can reach (a constructed instance, then
    any sequence of [start_utt], [end_utt], [get_in_speech],
    [process_audio], [batch_process], [set_kws_list] and callback
    assignments, whether they return or raise), exactly one of [utt_idle],
    [utt_started], [utt_ended] is true; and it is so again after any
    further operation. *)
Theorem utterance_state_exactly_one w :
  reachable (C:=C) w ->
  exactly_one (utt_idle (self w)) (utt_started (self w)) (utt_ended (self w))
  /\ forall o,
       exactly_one (utt_idle (self (run o w))) (utt_started (self (run o w)))
                   (utt_ended (self (run o w))).
Proof.
  intros Hr. split.
  - by apply invariant_exactly_one, reachable_invariant.
  - intros o. by apply invariant_exactly_one, run_invariant, reachable_invariant.
Qed.


End Sessions.

Section Batch.

Context {D : Type} `{Decoder D}.

Implicit Types (w : world D) (vs : list pyval).

Lemma process_each_length buffers ns fu uc w :
  length (fst (process_each buffers ns fu uc w)) = length buffers.
Proof.
  revert w. induction buffers as [| buf rest IH]; intros w; simpl; [done |].
  destruct (process_audio_returns buf ns fu uc w) as [v Hv].
  destruct (process_audio buf ns fu uc w) as [r w1]; simpl in *; subst r.
  specialize (IH w1).
  destruct (process_each rest ns fu uc w1) as [vs w2]; simpl in *.
  by rewrite IH.
Qed.

(** The loop of [batch_process] with callbacks disabled, for any value
    [acc] of its local [result]. *)
Lemma batch_loop_last_truthy buffers ns fu acc w :
  batch_loop buffers ns fu false acc w =
    (Return (default acc
               (last (filter (fun v => truthy v = true)
                        (fst (process_each buffers ns fu false w))))),
     snd (process_each buffers ns fu false w)).
Proof.
  revert acc w. induction buffers as [| buf rest IH]; intros acc w; simpl.
  - done.
  - unfold bind.
    destruct (process_audio_returns buf ns fu false w) as [v Hv].
    destruct (process_audio buf ns fu false w) as [r w1]; simpl in *; subst r.
    rewrite IH.
    destruct (process_each rest ns fu false w1) as [vs w2]; simpl.
    f_equal. f_equal.
    rewrite filter_cons. destruct (decide (truthy v = true)) as [Hv | Hv].
    + rewrite Hv, last_cons.
      by destruct (last (filter _ vs)).
    + apply not_true_is_false in Hv. by rewrite Hv.
Qed.

Lemma last_truthy_final vs1 h vs2 :
  truthy h = true -> Forall (fun v => truthy v = false) vs2 ->
  last_truthy (vs1 ++ h :: vs2) = h.
Proof.
  intros Hh Hf. unfold last_truthy.
  rewrite filter_app, filter_cons_True by done.
  replace (filter (fun v => truthy v = true) vs2) with (@nil pyval).
  - by rewrite last_snoc.
  - symmetry. induction Hf as [| v vs Hv _ IH]; [done |].
    rewrite filter_cons_False; [done | congruence].
Qed.

(** C4. With [use_callbacks] false, [batch_process] runs [process_audio] on
    every buffer in order and returns the last value returned by those calls
    that Python takes for true, [None] if there is none.  So when several
    calls return a hypothesis, only the last non-empty one comes back: the
    earlier ones are overwritten. *)
Theorem batch_process_last_hypothesis buffers ns fu w :
  let vs := fst (process_each buffers ns fu false w) in
  length vs = length buffers /\
  batch_process buffers ns fu false w =
    (Return (last_truthy vs), snd (process_each buffers ns fu false w)) /\
  (forall vs1 h vs2,
     vs = (vs1 ++ h :: vs2)%list -> truthy h = true ->
     Forall (fun v => truthy v = false) vs2 ->
     fst (batch_process buffers ns fu false w) = Return h).
Proof.
  simpl. split; [apply process_each_length |].
  assert (Hb : batch_process buffers ns fu false w =
    (Return (last_truthy (fst (process_each buffers ns fu false w))),
     snd (process_each buffers ns fu false w))).
  { unfold batch_process. by rewrite batch_loop_last_truthy. }
  split; [exact Hb |].
  intros vs1 h vs2 Hvs Hh Hf. rewrite Hb; simpl.
  rewrite Hvs. f_equal. by apply last_truthy_final.
Qed.

End Batch.

Section Keywords.

Context {D : Type} `{Decoder D}.

Implicit Types (w : world D) (items : list (string * pyval)).

(** The validation loop returns when every threshold is a number and
    otherwise raises for a pair of the mapping whose threshold is not. *)
Lemma write_items_result items tf w :
  match fst (write_items items tf w) with
  | Return tf' =>
      Forall (fun kv => is_number (snd kv) = true) items /\
      tf_name tf' = tf_name tf
  | Raise e =>
      exists words t,
        (words, t) ∈ items /\ is_number t = false /\
        e = PocketSphinxError (not_a_number_msg t words)
  end.
Proof.
  revert tf. induction items as [| [words t] rest IH]; intros tf; simpl.
  - by split.
  - destruct (is_number t) eqn:Ht; simpl.
    + specialize (IH (tf_write tf
        (words +:+ " /" +:+ py_str t +:+ "/" +:+ newline))).
      destruct (write_items rest _ w) as [[tf' | e] w1]; simpl in *.
      * destruct IH as [Hf Hn]. split; [by constructor |]. by rewrite Hn.
      * destruct IH as (words' & t' & Hin & Hnum & ->).
        exists words', t'. split; [by right | done].
    + exists words, t. split; [by left | done].
Qed.

Lemma normalize_truthy kws :
  normalize kws <> [] -> kws_truthy kws = true.
Proof. destruct kws as [| [|] | [|] | [|]]; simpl; done. Qed.

(** C7. [set_kws_list] raises [PocketSphinxError] if and only if the
    normalized keyword mapping has a threshold that is not a number.  When
    it does, the message is the one built from such a pair, its threshold
    and its phrase, and the log and the instance are as before the call:
    [set_kws] was not called, no search was registered. *)
Theorem set_kws_list_validation name kws w :
  let r := fst (set_kws_list name kws w) in
  let w' := snd (set_kws_list name kws w) in
  ((exists msg, r = Raise (PocketSphinxError msg)) <->
   (exists words t, (words, t) ∈ normalize kws /\ is_number t = false)) /\
  (forall msg, r = Raise (PocketSphinxError msg) ->
     (exists words t,
        (words, t) ∈ normalize kws /\ is_number t = false /\
        msg = not_a_number_msg t words) /\
     registrations (log w') = registrations (log w) /\
     log w' = log w /\ self w' = self w).
Proof.
  simpl. unfold set_kws_list.
  destruct (kws_truthy kws) eqn:Hk; simpl.
  - unfold NamedTemporaryFile, tf_close, set_kws, os_remove; unfold_monad.
    simpl.
    match goal with |- context [write_items ?i ?t ?x] =>
      pose proof (write_items_result i t x) as Hr;
      pose proof (write_items_world i t x) as Hx;
      destruct (write_items i t x) as [[tf' | e] wx] end;
      simpl in *; subst wx; simpl.
    + destruct Hr as [Hf Hn]. split.
      * split.
        -- intros [msg Hm]. repeat (case_match; simplify_eq/=).
        -- intros (words & t & Hin & Hnum).
           rewrite Forall_forall in Hf. specialize (Hf _ Hin); simpl in Hf.
           congruence.
      * intros msg Hm. repeat (case_match; simplify_eq/=).
    + destruct Hr as (words & t & Hin & Hnum & ->). split.
      * split; [intros _; eauto | intros _; eauto].
      * intros msg [= <-]. split; [eauto |]. done.
  - split.
    + split; [intros [msg Hm]; done |].
      intros (words & t & Hin & _).
      assert (normalize kws <> []) as Hne by (intros Hn; rewrite Hn in Hin;
        by apply elem_of_nil in Hin).
      apply normalize_truthy in Hne. congruence.
    + intros msg Hm. done.
Qed.

(** C9. [set_kws_list] with [None], an empty dict, an empty list or an
    empty tuple returns at once and leaves the world as it was: no file was
    created, the decoder was not called, no search was registered. *)
Theorem set_kws_list_empty_noop name w :
  set_kws_list name KNone w = (Return tt, w) /\
  set_kws_list name (KDict []) w = (Return tt, w) /\
  set_kws_list name (KList []) w = (Return tt, w) /\
  set_kws_list name (KTuple []) w = (Return tt, w).
Proof. done. Qed.

(** X15. The fate of the temporary file, path by path.  The call creates
    it under a name [p] no file had.  When the call returns, the disk is as
    before: the file is gone.  When validation fails or the decoder rejects
    the registration, the call raises with [p] still on disk. *)
Lemma set_kws_list_temp_file name kws w :
  kws_truthy kws = true ->
  let p := fresh (dom (files w)) in
  let r := fst (set_kws_list name kws w) in
  let w' := snd (set_kws_list name kws w) in
  files w !! p = None /\
  (r = Return tt -> files w' = files w) /\
  (forall msg,
     r = Raise (PocketSphinxError msg) \/ r = Raise (DecoderError msg) ->
     is_Some (files w' !! p)).
Proof.
  intros Hk; simpl.
  assert (Hp : files w !! fresh (dom (files w)) = None).
  { apply not_elem_of_dom, is_fresh. }
  split; [done |].
  unfold set_kws_list. rewrite Hk; simpl.
  unfold NamedTemporaryFile, tf_close, set_kws, os_remove; unfold_monad.
  simpl.
  match goal with |- context [write_items ?i ?t ?x] =>
    pose proof (write_items_result i t x) as Hr;
    pose proof (write_items_world i t x) as Hx;
    destruct (write_items i t x) as [[tf' | e] wx] end;
    simpl in *; subst wx; simpl.
  - destruct Hr as [_ Hn]. rewrite Hn.
    destruct (dec_set_kws _ _ _ _) as [msg | d']; simpl.
    + split; [done |]. intros _ _. rewrite lookup_insert_eq. eauto.
    + rewrite lookup_insert_eq. simpl. split.
      * intros _. rewrite insert_insert_eq, delete_insert_id; done.
      * intros msg [Hm | Hm]; discriminate Hm.
  - split; [done |]. intros _ _. rewrite lookup_insert_eq. eauto.
Qed.

End Keywords.

(** * The class on the scripted decoder *)

Module Examples.

Import Scripted.

Lemma fresh_world_reachable : reachable (C:=list string) fresh_world.
Proof. by apply (reachable_init (C:=list string) []). Qed.

Lemma with_callbacks_reachable : reachable (C:=list string) with_callbacks.
Proof. do 2 apply reachable_run. apply fresh_world_reachable. Qed.

Lemma listening_reachable : reachable (C:=list string) listening.
Proof. apply reachable_run, with_callbacks_reachable. Qed.

Lemma speaking_reachable : reachable (C:=list string) speaking.
Proof. apply reachable_run, listening_reachable. Qed.

(** C1, on the validation path and on the registration path.  From an empty
    disk, [set_kws_list "kw" {"test": "bad"}] raises the validation error
    and the temporary file it created, ["0"], is still on disk; and
    [set_kws_list "" {"hello world": 1e-20}], whose registration the decoder
    rejects, raises the decoder's error with the written file still on
    disk.  Only the call that returns removes it. *)
Theorem set_kws_list_leaves_temp_file :
  files fresh_world = ∅ /\
  fst (set_kws_list "kw" kw_bad fresh_world) =
    Raise (PocketSphinxError
             "threshold value of 'bad' for words 'test' is not a number") /\
  files (snd (set_kws_list "kw" kw_bad fresh_world)) !! "0" = Some "" /\
  fst (set_kws_list "" kw_hello fresh_world) =
    Raise (DecoderError "invalid search name") /\
  files (snd (set_kws_list "" kw_hello fresh_world)) !! "0" =
    Some ("hello world /1e-20/" +:+ newline) /\
  set_kws_list "kw1" kw_hello fresh_world =
    (Return tt,
     mkWorld (mkPocketSphinx VNone VNone _UTT_ENDED (mkState false [] ["kw1"]))
             ∅ [ESetKws "kw1" "0"]).
Proof. vm_compute. repeat split. Qed.

(** Silence, an utterance, a second utterance: with callbacks disabled the
    batch returns the hypothesis of the second utterance only. *)
Example batch_two_utterances :
  fst (batch_process two_utterances false false false fresh_world) =
    Return (VStr "bbcc").
Proof. vm_compute. reflexivity. Qed.

(** Silence, speech, silence with both callbacks registered: the
    speech-start callback and then the hypothesis callback, once each. *)
Example callbacks_once_each :
  calls (log (snd (batch_process [silence; speech x61; speech x61; silence]
                     false false true with_callbacks))) =
    [(VFun 1, []); (VFun 2, [VStr "aaaa"])].
Proof. vm_compute. reflexivity. Qed.

(** All silence from a fresh instance: no callback, no hypothesis. *)
Example all_silence :
  fst (batch_process [silence; silence; silence] false false false
         fresh_world) = Return VNone /\
  calls (log (snd (batch_process [silence; silence; silence] false false true
                     with_callbacks))) = [].
Proof. vm_compute. by split. Qed.

(** The guards on the scripted decoder: [start_utterance] while listening
    and [end_utterance] on a fresh instance change nothing. *)
Lemma utterance_guards_witness :
  (utt_idle (self listening) = true /\
   start_utterance listening = (Return tt, listening)) /\
  (utt_ended (self fresh_world) = true /\
   end_utterance fresh_world = (Return tt, fresh_world)).
Proof.
  split; (split; [reflexivity |]).
  - apply (proj1 (utterance_guards_noop_idempotent listening)).
    left; reflexivity.
  - apply (proj1 (proj2 (utterance_guards_noop_idempotent fresh_world))).
    reflexivity.
Defined.

(** A function object is stored; [5] is refused and the slot keeps its
    callback. *)
Lemma callback_setters_witness :
  (callable (VFun 7) = true /\
   speech_start_callback
     (self (snd (set_speech_start_callback (VFun 7) with_callbacks))) =
     VFun 7) /\
  (VInt 5 <> VNone /\ callable (VInt 5) = false /\
   exists msg,
     set_hypothesis_callback (VInt 5) with_callbacks =
       (Raise (TypeError msg), with_callbacks)).
Proof.
  split.
  - split; [reflexivity |].
    destruct (proj1 (callback_setters_validate with_callbacks (VFun 7))
                (or_intror eq_refl)) as [Hs _].
    rewrite Hs. reflexivity.
  - split; [discriminate |]. split; [reflexivity |].
    refine (proj2 (proj2 (callback_setters_validate with_callbacks (VInt 5))
                     _ eq_refl)).
    discriminate.
Defined.


(** With the hypothesis slot cleared, ending the utterance calls nothing. *)
Lemma process_audio_callbacks_witness :
  utt_started (self speaking_unobserved) = true /\
  hypothesis_callback (self speaking_unobserved) = VNone /\
  calls (log (snd (process_audio silence false false true
                     speaking_unobserved))) =
    calls (log speaking_unobserved).
Proof.
  split; [reflexivity |]. split; [reflexivity |].
  rewrite (proj2 (process_audio_callbacks_returns_none silence false false
                    speaking_unobserved)) by reflexivity.
  reflexivity.
Defined.

(** Mid-utterance, exactly one of the three predicates holds. *)
Lemma utterance_state_witness :
  reachable (C:=list string) speaking /\
  exactly_one (utt_idle (self speaking)) (utt_started (self speaking))
              (utt_ended (self speaking)).
Proof.
  split; [apply speaking_reachable |].
  apply (utterance_state_exactly_one (C:=list string) speaking).
  apply speaking_reachable.
Defined.


(** Two utterances in one batch: the second hypothesis is returned. *)
Lemma batch_process_last_hypothesis_witness :
  fst (batch_process two_utterances false false false fresh_world) =
    Return (VStr "bbcc").
Proof.
  apply (proj2 (proj2 (batch_process_last_hypothesis two_utterances
                         false false fresh_world))
           [VNone; VNone; VStr "aa"; VNone; VNone] (VStr "bbcc") []).
  - reflexivity.
  - reflexivity.
  - constructor.
Defined.

(** A string threshold is refused before any decoder call. *)
Lemma set_kws_list_validation_witness :
  fst (set_kws_list "kw" kw_bad fresh_world) =
    Raise (PocketSphinxError
             "threshold value of 'bad' for words 'test' is not a number") /\
  log (snd (set_kws_list "kw" kw_bad fresh_world)) = log fresh_world.
Proof.
  assert (Hraise : fst (set_kws_list "kw" kw_bad fresh_world) =
    Raise (PocketSphinxError
             "threshold value of 'bad' for words 'test' is not a number"))
    by (vm_compute; reflexivity).
  split; [exact Hraise |].
  apply (proj2 (set_kws_list_validation "kw" kw_bad fresh_world) _ Hraise).
Defined.

End Examples.

(** * Further properties *)

Section TrackerMore.

Context {D : Type} `{Decoder D}.

Implicit Types (w : world D) (s : PocketSphinx D).

(** X1. [start_utt] always leaves an utterance in progress and [end_utt]
    always leaves none.  From state Ended, [start_utt] calls the decoder's
    [start_utt] once and moves to Idle; from any other state, [end_utt]
    calls the decoder's [end_utt] once and moves to Ended; neither touches
    the callbacks or the disk. *)
Theorem utterance_start_end w :
  utt_ended (self (snd (start_utt w))) = false /\
  utt_ended (self (snd (end_utt w))) = true /\
  (utt_ended (self w) = true ->
   start_utt w =
     (Return tt,
      mkWorld (mkPocketSphinx (_speech_start_callback (self w))
                 (_hypothesis_callback (self w)) _UTT_IDLE
                 (dec_start_utt (super_ (self w))))
              (files w) (log w ++ [EStartUtt])%list)) /\
  (utt_ended (self w) = false ->
   end_utt w =
     (Return tt,
      mkWorld (mkPocketSphinx (_speech_start_callback (self w))
                 (_hypothesis_callback (self w)) _UTT_ENDED
                 (dec_end_utt (super_ (self w))))
              (files w) (log w ++ [EEndUtt])%list)).
Proof.
  destruct w as [[c1 c2 u d] fs l].
  unfold_tracker; unfold_monad; simpl.
  destruct (decide (u = _UTT_ENDED)) as [-> | Hu]; simpl.
  - repeat split; try reflexivity. intros [=].
  - rewrite (bool_decide_eq_false_2 _ Hu). simpl.
    repeat split; try reflexivity.
    + by apply bool_decide_eq_false_2.
    + intros [=].
Qed.

(** X3. Called directly, [get_in_speech] returns what the decoder reports
    and leaves the decoder, the callbacks and the disk alone.  It does not
    open an utterance: in state Ended the tracker stays Ended even when the
    decoder reports speech.  It moves the tracker only from Idle to
    Started, and a second call changes nothing more. *)
Theorem get_in_speech_direct w :
  let w' := snd (get_in_speech w) in
  fst (get_in_speech w) = Return (dec_get_in_speech (super_ (self w))) /\
  super_ (self w') = super_ (self w) /\
  files w' = files w /\
  utt_ended (self w') = utt_ended (self w) /\
  _utterance_state (self w') =
    (if dec_get_in_speech (super_ (self w)) && utt_idle (self w)
     then _UTT_STARTED else _utterance_state (self w)) /\
  self (snd (get_in_speech w')) = self w'.
Proof.
  destruct w as [[c1 c2 u d] fs l].
  unfold_tracker; unfold_monad; simpl.
  destruct (dec_get_in_speech d) eqn:Hq; simpl.
  - destruct (decide (u = _UTT_IDLE)) as [-> | Hu]; simpl.
    + rewrite Hq. simpl. by repeat split.
    + rewrite (bool_decide_eq_false_2 _ Hu). simpl. rewrite Hq; simpl.
      rewrite (bool_decide_eq_false_2 _ Hu). simpl. by repeat split.
  - rewrite Hq. simpl. by repeat split.
Qed.

End TrackerMore.

(** Case analysis on the tracker attribute: one of the three sentinels, or
    some other object. *)
Lemma objid_cases (u : objid) :
  u = _UTT_IDLE \/ u = _UTT_STARTED \/ u = _UTT_ENDED \/
  (u <> _UTT_IDLE /\ u <> _UTT_STARTED /\ u <> _UTT_ENDED).
Proof.
  destruct (decide (u = _UTT_IDLE)); [by left |].
  destruct (decide (u = _UTT_STARTED)); [by right; left |].
  destruct (decide (u = _UTT_ENDED)); [by right; right; left |].
  by right; right; right.
Qed.

Ltac case_state u :=
  let Hi := fresh "Hi" in
  let Hs := fresh "Hs" in
  let He := fresh "He" in
  destruct (objid_cases u) as [-> | [-> | [-> | (Hi & Hs & He)]]];
  simpl;
  [ | | | rewrite ?(bool_decide_eq_false_2 _ Hi), ?(bool_decide_eq_false_2 _ Hs),
               ?(bool_decide_eq_false_2 _ He); simpl ].

Section FrameProcessorMore.

Context {D : Type} `{Decoder D}.

Implicit Types (w : world D) (s : PocketSphinx D).

(** X5. What one call to [process_audio] does to the decoder and the
    callbacks, in order: [start_utt] first if and only if no utterance was
    in progress; then the buffer is fed once, with the two flags as
    given; then speech detection is queried once; then nothing, or one
    call without arguments, or [end_utt] followed by [hyp], or these two
    followed by one call on the hypothesis just fetched. *)
Theorem process_audio_protocol buf ns fu uc w :
  let q := dec_get_in_speech (super_ (self (at_snapshot buf ns fu w))) in
  exists tail,
    log (snd (process_audio buf ns fu uc w)) =
      (log w ++ (if utt_ended (self w) then [EStartUtt] else []) ++
       [EProcessRaw buf ns fu; EGetInSpeech q] ++ tail)%list /\
    (tail = [] \/ (exists cb, tail = [ECall cb []]) \/
     (exists h, tail = [EEndUtt; EHyp h]) \/
     (exists h cb, tail = [EEndUtt; EHyp h; ECall cb [h]])).
Proof.
  destruct w as [[c1 c2 u d] fs l].
  unfold at_snapshot, process_audio; unfold_tracker; unfold_monad; simpl.
  case_state u.
  all: destruct (dec_get_in_speech _) eqn:Hq; simpl.
  all: rewrite ?(bool_decide_eq_false_2 _ Hi), ?(bool_decide_eq_false_2 _ Hs),
         ?(bool_decide_eq_false_2 _ He); simpl.
  all: destruct uc; simpl.
  all: try (destruct (truthy c1); simpl).
  all: try (destruct (truthy c2); simpl).
  all: eexists; split; [rewrite <- ?app_assoc; simpl; reflexivity |].
  all: eauto 10.
Qed.

(** X6. A frame on which nothing happens: when the decoder reports no
    speech and the call was not entered in state Started, or reports speech
    and the call was entered in state Started, [process_audio] returns
    [None], invokes no callback, and neither ends the utterance nor fetches
    a hypothesis. *)
Theorem process_audio_quiet_frame buf ns fu uc w :
  let q := dec_get_in_speech (super_ (self (at_snapshot buf ns fu w))) in
  (q = false /\ utt_started (self w) = false) \/
  (q = true /\ utt_started (self w) = true) ->
  fst (process_audio buf ns fu uc w) = Return VNone /\
  log (snd (process_audio buf ns fu uc w)) =
    (log w ++ (if utt_ended (self w) then [EStartUtt] else []) ++
     [EProcessRaw buf ns fu; EGetInSpeech q])%list /\
  utt_started (self (snd (process_audio buf ns fu uc w))) =
    utt_started (self w).
Proof.
  destruct w as [[c1 c2 u d] fs l].
  unfold at_snapshot, process_audio; unfold_tracker; unfold_monad; simpl.
  case_state u.
  all: destruct (dec_get_in_speech _) eqn:Hq; simpl.
  all: rewrite ?(bool_decide_eq_false_2 _ Hi), ?(bool_decide_eq_false_2 _ Hs),
         ?(bool_decide_eq_false_2 _ He); simpl.
  all: intros [[Hq1 Hq2] | [Hq1 Hq2]]; try discriminate.
  all: rewrite <- ?app_assoc; simpl.
  all: rewrite ?(bool_decide_eq_false_2 _ Hs); by repeat split.
Qed.

End FrameProcessorMore.

Section KeywordsFrame.

Context {D : Type} `{Decoder D}.

Implicit Types (w : world D).

(** What [set_kws_list] can change: it logs at most one [set_kws] call and
    leaves the tracker and the callbacks alone. *)
Lemma set_kws_list_frame name kws w :
  let w' := snd (set_kws_list name kws w) in
  (log w' = log w \/ exists p, log w' = (log w ++ [ESetKws name p])%list) /\
  _utterance_state (self w') = _utterance_state (self w) /\
  _speech_start_callback (self w') = _speech_start_callback (self w) /\
  _hypothesis_callback (self w') = _hypothesis_callback (self w).
Proof.
  simpl. unfold set_kws_list.
  destruct (kws_truthy kws); simpl; [| by repeat split; left].
  unfold NamedTemporaryFile, tf_close, set_kws, os_remove; unfold_monad.
  simpl.
  match goal with |- context [write_items ?i ?t ?x] =>
    pose proof (write_items_world i t x) as Hx;
    destruct (write_items i t x) as [[tf' | e] wx] end;
    simpl in *; subst wx; simpl; [| by repeat split; left].
  destruct w as [[c1 c2 u d] fs l]; simpl.
  destruct (dec_set_kws _ _ _ _); simpl;
    [| destruct (_ !! _); simpl]; repeat split; right; eauto.
Qed.

End KeywordsFrame.

Section SessionsMore.

Context {D : Type} `{Decoder D} {C : Type} `{!ConfigEnv (D:=D) C}.

Implicit Types (w : world D) (s : PocketSphinx D).

Lemma calls_app (l1 l2 : list event) :
  calls (l1 ++ l2) = (calls l1 ++ calls l2)%list.
Proof. apply omap_app. Qed.

Lemma decoder_utterance_app (l1 l2 : list event) :
  decoder_utterance (l1 ++ l2) = fold_left track_event l2 (decoder_utterance l1).
Proof. apply fold_left_app. Qed.

(** X7. The tracker after [process_audio], in a session: Started when the
    decoder reports speech; otherwise Ended when the call was entered in
    state Started, and Idle when it was not. *)
Theorem process_audio_transition buf ns fu uc w :
  reachable (C:=C) w ->
  let q := dec_get_in_speech (super_ (self (at_snapshot buf ns fu w))) in
  _utterance_state (self (snd (process_audio buf ns fu uc w))) =
    if q then _UTT_STARTED
    else if utt_started (self w) then _UTT_ENDED else _UTT_IDLE.
Proof.
  intros Hr. apply reachable_invariant in Hr.
  destruct w as [[c1 c2 u d] fs l]. destruct Hr as [Hu _ _]; simpl in *.
  unfold at_snapshot, process_audio; unfold_tracker; unfold_monad.
  destruct Hu as [-> | [-> | ->]]; simpl.
  all: destruct (dec_get_in_speech _) eqn:Hq; simpl.
  all: destruct uc; simpl.
  all: try (destruct (truthy c1); simpl).
  all: try (destruct (truthy c2); simpl).
  all: reflexivity.
Qed.

Lemma process_audio_tracked buf ns fu uc w :
  tracked w -> tracked (snd (process_audio buf ns fu uc w)).
Proof.
  intros [Hi Ht]. split; [by apply process_audio_invariant |].
  destruct w as [[c1 c2 u d] fs l]. destruct Hi as [Hu _ _]; simpl in *.
  revert Ht.
  unfold process_audio; unfold_tracker; unfold_monad.
  destruct Hu as [-> | [-> | ->]]; simpl; intros Ht.
  all: destruct (dec_get_in_speech _) eqn:Hq; simpl.
  all: destruct uc; simpl.
  all: try (destruct (truthy c1); simpl).
  all: try (destruct (truthy c2); simpl).
  all: rewrite ?decoder_utterance_app, Ht; reflexivity.
Qed.

Lemma batch_loop_tracked buffers ns fu uc acc w :
  tracked w -> tracked (snd (batch_loop buffers ns fu uc acc w)).
Proof.
  revert acc w. induction buffers as [| buf rest IH]; intros acc w Hw; simpl.
  - done.
  - pose proof (process_audio_tracked buf ns fu uc w Hw) as Hp.
    destruct (process_audio_returns buf ns fu uc w) as [v Hv].
    destruct uc; unfold bind;
      destruct (process_audio buf ns fu _ w) as [r w1]; simpl in *; subst r;
      by apply IH.
Qed.

Ltac tracked_step :=
  match goal with
  | Ht : decoder_utterance _ = _ |- _ =>
      rewrite ?decoder_utterance_app, Ht; unfold utt_ended; simpl;
      repeat case_bool_decide; reflexivity
  end.

Lemma run_tracked o w : tracked w -> tracked (run o w).
Proof.
  intros [Hi Ht]. split; [by apply run_invariant |].
  destruct o; simpl.
  - destruct w as [[c1 c2 u d] fs l]; destruct Hi as [Hu _ _];
      simpl in *; revert Ht; unfold_tracker; unfold_monad.
    destruct Hu as [-> | [-> | ->]]; simpl; intros Ht; tracked_step.
  - destruct w as [[c1 c2 u d] fs l]; destruct Hi as [Hu _ _];
      simpl in *; revert Ht; unfold_tracker; unfold_monad.
    destruct Hu as [-> | [-> | ->]]; simpl; intros Ht; tracked_step.
  - destruct w as [[c1 c2 u d] fs l]; destruct Hi as [Hu _ _];
      simpl in *; revert Ht; unfold_tracker; unfold_monad.
    destruct Hu as [-> | [-> | ->]]; simpl; intros Ht;
      destruct (dec_get_in_speech d); simpl; tracked_step.
  - by apply process_audio_tracked.
  - by apply batch_loop_tracked.
  - destruct (set_kws_list_frame name kws_list w)
      as ([Hl | [p Hl]] & Hu & _);
      unfold utt_ended in *; rewrite Hl, Hu; tracked_step.
  - destruct w as [[c1 c2 u d] fs l]; simpl in *.
    unfold set_speech_start_callback; unfold_monad.
    destruct (negb (callable value) && negb (is_none value)); simpl;
      tracked_step.
  - destruct w as [[c1 c2 u d] fs l]; simpl in *.
    unfold set_hypothesis_callback; unfold_monad.
    destruct (negb (callable value) && negb (is_none value)); simpl;
      tracked_step.
  - destruct w as [[c1 c2 u d] fs l]; simpl in *. tracked_step.
  - destruct w as [[c1 c2 u d] fs l]; simpl in *.
    unfold set_active_search, set_search; unfold_monad; simpl.
    destruct (dec_set_search value d); simpl; tracked_step.
  - destruct w as [[c1 c2 u d] fs l]; simpl in *. tracked_step.
  - destruct w as [[c1 c2 u d] fs l]; simpl in *. tracked_step.
Qed.

(** X2. Throughout a session the calls to the decoder's [start_utt] and
    [end_utt] alternate, starting with [start_utt], and the tracker is in
    state Ended exactly when the last of them was [end_utt] (or none was
    made): the class never starts the decoder twice, never ends it when it
    is not started, and its tracker never disagrees with the decoder's own
    utterance flag. *)
Theorem decoder_utterance_tracked w :
  reachable (C:=C) w ->
  decoder_utterance (log w) = Some (negb (utt_ended (self w))).
Proof.
  intros Hr. cut (tracked w); [by intros [_ Ht] |].
  induction Hr as [config s d Hi | o w _ IH].
  - split; [simpl; by eapply init_invariant |].
    unfold __init__ in Hi.
    repeat (case_match; simplify_eq/=); reflexivity.
  - by apply run_tracked.
Qed.

End SessionsMore.

Section CallbacksMore.

Context {D : Type} `{Decoder D}.

Implicit Types (w : world D) (s : PocketSphinx D).

Lemma process_audio_silent buf ns fu w :
  calls (log (snd (process_audio buf ns fu false w))) = calls (log w).
Proof.
  destruct w as [[c1 c2 u d] fs l].
  unfold process_audio; unfold_tracker; unfold_monad; simpl.
  case_state u.
  all: destruct (dec_get_in_speech _) eqn:Hq; simpl.
  all: rewrite ?(bool_decide_eq_false_2 _ Hi), ?(bool_decide_eq_false_2 _ Hs),
         ?(bool_decide_eq_false_2 _ He); simpl.
  all: rewrite ?calls_app; simpl; by rewrite ?app_nil_r.
Qed.

Lemma batch_loop_silent buffers ns fu acc w :
  calls (log (snd (batch_loop buffers ns fu false acc w))) = calls (log w).
Proof.
  revert acc w. induction buffers as [| buf rest IH]; intros acc w; simpl.
  - done.
  - pose proof (process_audio_silent buf ns fu w) as Hp.
    destruct (process_audio_returns buf ns fu false w) as [v Hv].
    unfold bind.
    destruct (process_audio buf ns fu false w) as [r w1]; simpl in *; subst r.
    by rewrite IH.
Qed.

(** X4. Callbacks are invoked by [process_audio] and [batch_process] with
    [use_callbacks] true, and by nothing else: every other operation, and
    these two with [use_callbacks] false, leaves the sequence of callback
    invocations as it was. *)
Theorem callbacks_only_when_enabled o w :
  enables_callbacks o = false -> calls (log (run o w)) = calls (log w).
Proof.
  intros Ho. destruct o; simpl in *; subst.
  - destruct w as [[c1 c2 u d] fs l]. unfold_tracker; unfold_monad; simpl.
    case_bool_decide; simpl; rewrite ?calls_app; simpl;
      by rewrite ?app_nil_r.
  - destruct w as [[c1 c2 u d] fs l]. unfold_tracker; unfold_monad; simpl.
    case_bool_decide; simpl; rewrite ?calls_app; simpl;
      by rewrite ?app_nil_r.
  - destruct w as [[c1 c2 u d] fs l]. unfold_tracker; unfold_monad; simpl.
    destruct (dec_get_in_speech d); simpl; repeat case_bool_decide; simpl;
      rewrite ?calls_app; simpl; by rewrite ?app_nil_r.
  - apply process_audio_silent.
  - apply batch_loop_silent.
  - destruct (set_kws_list_frame name kws_list w) as ([Hl | [p Hl]] & _);
      rewrite Hl, ?calls_app; simpl; by rewrite ?app_nil_r.
  - destruct w as [[c1 c2 u d] fs l].
    unfold set_speech_start_callback; unfold_monad.
    by destruct (negb (callable value) && negb (is_none value)).
  - destruct w as [[c1 c2 u d] fs l].
    unfold set_hypothesis_callback; unfold_monad.
    by destruct (negb (callable value) && negb (is_none value)).
  - simpl. rewrite calls_app; simpl. by rewrite app_nil_r.
  - destruct w as [[c1 c2 u d] fs l].
    unfold set_active_search, set_search; unfold_monad; simpl.
    destruct (dec_set_search value d); simpl; rewrite calls_app; simpl;
      by rewrite app_nil_r.
  - simpl. rewrite calls_app; simpl. by rewrite app_nil_r.
  - simpl. rewrite calls_app; simpl. by rewrite app_nil_r.
Qed.

(** X10. Silence, speech, silence.  With no utterance in progress and a
    value that tests true in each slot, three buffers on which the decoder
    reports no speech, speech, and no speech make [batch_process] with
    callbacks invoke the speech-start callback once and then the
    hypothesis callback once, on the hypothesis of the utterance; the
    tracker is back in state Ended and the batch returns [None]. *)
Theorem silence_speech_silence b1 b2 b3 ns fu w :
  utt_ended (self w) = true ->
  truthy (speech_start_callback (self w)) = true ->
  truthy (hypothesis_callback (self w)) = true ->
  let d1 := dec_process_raw b1 ns fu (dec_start_utt (super_ (self w))) in
  let d2 := dec_process_raw b2 ns fu d1 in
  let d3 := dec_process_raw b3 ns fu d2 in
  dec_get_in_speech d1 = false ->
  dec_get_in_speech d2 = true ->
  dec_get_in_speech d3 = false ->
  let w' := snd (batch_process [b1; b2; b3] ns fu true w) in
  fst (batch_process [b1; b2; b3] ns fu true w) = Return VNone /\
  calls (log w') =
    (calls (log w) ++
     [(speech_start_callback (self w), []);
      (hypothesis_callback (self w), [dec_hyp (dec_end_utt d3)])])%list /\
  utt_ended (self w') = true.
Proof.
  destruct w as [[c1 c2 u d] fs l]; simpl.
  unfold utt_ended, speech_start_callback, hypothesis_callback; simpl.
  intros ->%bool_decide_eq_true Hc1 Hc2 Hq1 Hq2 Hq3.
  unfold batch_process, batch_loop, process_audio, speech_start_callback,
    hypothesis_callback; unfold_tracker; unfold_monad; simpl.
  rewrite Hq1; simpl. rewrite Hq2; simpl. rewrite Hc1; simpl.
  rewrite Hq3; simpl. rewrite Hc2; simpl.
  repeat split. rewrite !calls_app; simpl.
  by rewrite !app_nil_r, <- app_assoc.
Qed.

End CallbacksMore.

Section BatchMore.

Context {D : Type} `{Decoder D}.

Implicit Types (w : world D) (vs : list pyval).

Lemma process_audio_callbacks_none buf ns fu w :
  fst (process_audio buf ns fu true w) = Return VNone.
Proof.
  destruct w as [[c1 c2 u d] fs l].
  unfold process_audio; unfold_tracker; unfold_monad; simpl.
  case_state u.
  all: destruct (dec_get_in_speech _) eqn:Hq; simpl.
  all: rewrite ?(bool_decide_eq_false_2 _ Hi), ?(bool_decide_eq_false_2 _ Hs),
         ?(bool_decide_eq_false_2 _ He); simpl.
  all: try (destruct (truthy c1); simpl).
  all: try (destruct (truthy c2); simpl).
  all: reflexivity.
Qed.

(** The loop of [batch_process] with callbacks enabled never assigns its
    local [result]. *)
Lemma batch_loop_callbacks buffers ns fu acc w :
  batch_loop buffers ns fu true acc w =
    (Return acc, snd (process_each buffers ns fu true w)).
Proof.
  revert w. induction buffers as [| buf rest IH]; intros w; simpl; [done |].
  unfold bind.
  destruct (process_audio_returns buf ns fu true w) as [v Hv].
  destruct (process_audio buf ns fu true w) as [r w1]; simpl in *; subst r.
  rewrite IH. by destruct (process_each rest ns fu true w1).
Qed.

(** X8. With [use_callbacks] true, [batch_process] returns [None] whatever
    the buffers hold, also when utterances end within the batch; all it
    does is run [process_audio] on each buffer in order. *)
Theorem batch_process_callbacks_returns_none buffers ns fu w :
  batch_process buffers ns fu true w =
    (Return VNone, snd (process_each buffers ns fu true w)) /\
  length (fst (process_each buffers ns fu true w)) = length buffers /\
  Forall (fun v => v = VNone) (fst (process_each buffers ns fu true w)).
Proof.
  split; [apply batch_loop_callbacks |].
  split; [apply process_each_length |].
  revert w. induction buffers as [| buf rest IH]; intros w; simpl; [done |].
  pose proof (process_audio_callbacks_none buf ns fu w) as Hn.
  destruct (process_audio buf ns fu true w) as [r w1]; simpl in *; subst r.
  specialize (IH w1).
  destruct (process_each rest ns fu true w1); simpl in *.
  by constructor.
Qed.

Lemma process_each_app bs1 bs2 ns fu uc w :
  process_each (bs1 ++ bs2) ns fu uc w =
    (fst (process_each bs1 ns fu uc w) ++
     fst (process_each bs2 ns fu uc (snd (process_each bs1 ns fu uc w))),
     snd (process_each bs2 ns fu uc (snd (process_each bs1 ns fu uc w))))%list.
Proof.
  revert w. induction bs1 as [| buf rest IH]; intros w; simpl.
  - by destruct (process_each bs2 ns fu uc w).
  - destruct (process_audio_returns buf ns fu uc w) as [v Hv].
    destruct (process_audio buf ns fu uc w) as [r w1]; simpl in *; subst r.
    rewrite IH.
    by destruct (process_each rest ns fu uc w1).
Qed.

(** X9. Splitting a batch.  Processing [bs1 ++ bs2] in one batch leaves
    the world that processing [bs1] and then [bs2] in two batches leaves,
    and returns the result of the second batch when that is true for
    Python and the result of the first batch otherwise. *)
Theorem batch_process_app bs1 bs2 ns fu uc w :
  exists r1 r2 w1 w2,
    batch_process bs1 ns fu uc w = (Return r1, w1) /\
    batch_process bs2 ns fu uc w1 = (Return r2, w2) /\
    batch_process (bs1 ++ bs2) ns fu uc w =
      (Return (if truthy r2 then r2 else r1), w2).
Proof.
  set (w1 := snd (process_each bs1 ns fu uc w)).
  set (w2 := snd (process_each bs2 ns fu uc w1)).
  unfold batch_process. destruct uc.
  - exists VNone, VNone, w1, w2.
    rewrite !batch_loop_callbacks, process_each_app. by subst w1 w2.
  - exists (last_truthy (fst (process_each bs1 ns fu false w))),
      (last_truthy (fst (process_each bs2 ns fu false w1))), w1, w2.
    rewrite !batch_loop_last_truthy, process_each_app.
    split; [reflexivity |]. split; [reflexivity |]. simpl.
    f_equal. fold w1. fold w2. f_equal.
    unfold last_truthy. rewrite filter_app, last_app.
    destruct (last (filter _ (fst (process_each bs2 ns fu false w1))))
      as [x |] eqn:Hl; simpl.
    + apply last_Some_elem_of, list_elem_of_filter in Hl as [Hx _].
      by rewrite Hx.
    + done.
Qed.

End BatchMore.

Section Mapping.

Implicit Types (d pairs : list (string * pyval)) (k : string) (v : pyval).

Lemma dict_of_pairs_snoc pairs k v :
  dict_of_pairs (pairs ++ [(k, v)]) = dict_set k v (dict_of_pairs pairs).
Proof. unfold dict_of_pairs. by rewrite fold_left_app. Qed.

Lemma dict_set_keys k v d k' :
  k' ∈ map fst (dict_set k v d) <-> k' = k \/ k' ∈ map fst d.
Proof.
  induction d as [| [k0 v0] r IH]; simpl.
  - rewrite list_elem_of_singleton, elem_of_nil. tauto.
  - destruct (String.eqb_spec k k0) as [-> | Hne]; simpl.
    + rewrite !elem_of_cons. tauto.
    + rewrite !elem_of_cons, IH. tauto.
Qed.

Lemma dict_set_NoDup k v d :
  NoDup (map fst d) -> NoDup (map fst (dict_set k v d)).
Proof.
  induction d as [| [k0 v0] r IH]; simpl; intros Hd.
  - apply NoDup_singleton.
  - apply NoDup_cons in Hd as [Hk Hr].
    destruct (String.eqb_spec k k0) as [-> | Hne]; simpl.
    + by apply NoDup_cons.
    + apply NoDup_cons. split; [| by apply IH].
      rewrite dict_set_keys. intros [-> | Hin]; done.
Qed.

Lemma dict_set_elem k v d k' v' :
  NoDup (map fst d) ->
  (k', v') ∈ dict_set k v d <->
  (k' = k /\ v' = v) \/ (k' <> k /\ (k', v') ∈ d).
Proof.
  induction d as [| [k0 v0] r IH]; simpl; intros Hd.
  - rewrite list_elem_of_singleton, elem_of_nil. split.
    + intros [= -> ->]. by left.
    + intros [[-> ->] | [_ []]]. done.
  - apply NoDup_cons in Hd as [Hk Hr].
    destruct (String.eqb_spec k k0) as [-> | Hne]; simpl.
    + rewrite !elem_of_cons. split.
      * intros [[= -> ->] | Hin]; [by left |].
        right. split; [| by right]. intros ->. apply Hk.
        apply list_elem_of_fmap. by exists (k0, v').
      * intros [[-> ->] | [Hn [[= -> ->] | Hin]]]; [by left | done | by right].
    + rewrite !elem_of_cons, (IH Hr). split.
      * intros [[= -> ->] | [[-> ->] | [Hn Hin]]].
        -- right. split; [done | by left].
        -- by left.
        -- right. split; [done | by right].
      * intros [[-> ->] | [Hn [[= -> ->] | Hin]]].
        -- right. by left.
        -- by left.
        -- right. right. done.
Qed.

Lemma dict_of_pairs_NoDup pairs : NoDup (map fst (dict_of_pairs pairs)).
Proof.
  induction pairs as [| [k v] r IH] using rev_ind.
  - apply NoDup_nil_2.
  - rewrite dict_of_pairs_snoc. by apply dict_set_NoDup.
Qed.

(** X11. [dict(pairs)] as the class uses it: no phrase occurs twice in the
    mapping, and a phrase is mapped to [v] exactly when the last pair with
    that phrase in [pairs] has threshold [v]: of two pairs with the same
    phrase the later one wins. *)
Theorem dict_of_pairs_last_wins pairs :
  NoDup (map fst (dict_of_pairs pairs)) /\
  forall k v, (k, v) ∈ dict_of_pairs pairs <-> last_value k pairs = Some v.
Proof.
  split; [apply dict_of_pairs_NoDup |].
  induction pairs as [| [k0 v0] r IH] using rev_ind; intros k v.
  - unfold last_value. simpl. rewrite elem_of_nil. split; [done | done].
  - rewrite dict_of_pairs_snoc,
      (dict_set_elem _ _ _ _ _ (dict_of_pairs_NoDup r)), IH.
    unfold last_value. rewrite filter_app.
    destruct (decide (k0 = k)) as [-> | Hne].
    + rewrite filter_cons_True by done. rewrite filter_nil, last_snoc. simpl.
      split.
      * intros [[_ ->] | [Hn _]]; done.
      * intros [= ->]. by left.
    + rewrite filter_cons_False by done. rewrite filter_nil, app_nil_r.
      split.
      * intros [[-> _] | [_ Hl]]; done.
      * intros Hl. right. split; [congruence | done].
Qed.

End Mapping.

Section KeywordsMore.

Context {D : Type} `{Decoder D}.

Implicit Types (w : world D) (items pairs : list (string * pyval)).

Lemma string_app_assoc (s1 s2 s3 : string) :
  (s1 +:+ s2) +:+ s3 = s1 +:+ (s2 +:+ s3).
Proof.
  induction s1 as [| a s1 IH]; [done |].
  change (String a ((s1 +:+ s2) +:+ s3) = String a (s1 +:+ (s2 +:+ s3))).
  by f_equal.
Qed.

Lemma string_app_nil_r (s : string) : s +:+ "" = s.
Proof.
  induction s as [| a s IH]; [done |].
  change (String a (s +:+ "") = String a s). by f_equal.
Qed.

(** With numeric thresholds only, the loop writes the lines of the
    mapping, in order, after what the buffer held. *)
Lemma write_items_text items tf w :
  Forall (fun kv => is_number (snd kv) = true) items ->
  write_items items tf w =
    (Return (mkTempfile (tf_name tf) (tf_buffer tf +:+ kws_text items)), w).
Proof.
  intros Hf. revert tf.
  induction Hf as [| [words t] rest Ht _ IH]; intros tf; simpl in *.
  - rewrite string_app_nil_r. by destruct tf.
  - rewrite Ht; simpl. rewrite IH. simpl.
    unfold kws_line; simpl. by rewrite !string_app_assoc.
Qed.

Lemma dict_set_nonempty k v d : dict_set k v d <> [].
Proof. destruct d as [| [k0 v0] r]; simpl; [done |]. by case_match. Qed.

Lemma dict_of_pairs_nonempty pairs :
  pairs <> [] -> dict_of_pairs pairs <> [].
Proof.
  destruct pairs as [| [k v] r] using rev_ind; [done |]. intros _.
  rewrite dict_of_pairs_snoc. apply dict_set_nonempty.
Qed.

(** X12. A list of pairs and a tuple of pairs are treated alike, and both
    exactly as the dict that [dict] builds from them: same result, same
    file, same registration. *)
Theorem set_kws_list_pairs name pairs w :
  set_kws_list name (KTuple pairs) w = set_kws_list name (KList pairs) w /\
  set_kws_list name (KList pairs) w =
    set_kws_list name (KDict (dict_of_pairs pairs)) w.
Proof.
  split; [by destruct pairs |].
  destruct pairs as [| kv r]; [done |].
  unfold set_kws_list. simpl.
  pose proof (dict_of_pairs_nonempty (kv :: r)) as Hne.
  destruct (dict_of_pairs (kv :: r)) eqn:Hd; [by destruct Hne |]. done.
Qed.

(** X13. The registration path.  For a non-empty keyword spec whose
    thresholds are all numbers, [set_kws_list] calls the decoder's
    [set_kws] exactly once, with the given name and the path of a new file
    that holds one line [<phrase> /<threshold>/] per phrase of the mapping,
    in order.  If the decoder accepts, the call returns with the file
    removed and the disk as before; if it rejects, the decoder's error is
    raised and the instance is unchanged. *)
Theorem set_kws_list_registers name kws w :
  kws_truthy kws = true ->
  Forall (fun kv => is_number (snd kv) = true) (normalize kws) ->
  let p := fresh (dom (files w)) in
  let on_disk := <[p := kws_text (normalize kws)]> (files w) in
  files w !! p = None /\
  set_kws_list name kws w =
    match dec_set_kws name p on_disk (super_ (self w)) with
    | inr d' =>
        (Return tt,
         mkWorld (mkPocketSphinx (_speech_start_callback (self w))
                    (_hypothesis_callback (self w))
                    (_utterance_state (self w)) d')
                 (files w) (log w ++ [ESetKws name p])%list)
    | inl msg =>
        (Raise (DecoderError msg),
         mkWorld (self w) on_disk (log w ++ [ESetKws name p])%list)
    end.
Proof.
  intros Hk Hf; simpl.
  assert (Hp : files w !! fresh (dom (files w)) = None).
  { apply not_elem_of_dom, is_fresh. }
  split; [done |].
  unfold set_kws_list. rewrite Hk; simpl.
  unfold NamedTemporaryFile, tf_close, set_kws, os_remove; unfold_monad.
  simpl. rewrite (write_items_text _ _ _ Hf). simpl.
  rewrite insert_insert_eq.
  destruct (dec_set_kws _ _ _ _) as [msg | d']; simpl; [done |].
  rewrite lookup_insert_eq. simpl. by rewrite delete_insert_id.
Qed.

(** X14. [set_kws_list] never touches a file that was on disk before the
    call, on any path: such a file is neither removed nor overwritten,
    whether the call returns or raises. *)
Theorem set_kws_list_spares_files name kws w (q : string) :
  is_Some (files w !! q) ->
  files (snd (set_kws_list name kws w)) !! q = files w !! q.
Proof.
  intros Hq.
  assert (Hne : fresh (dom (files w)) <> q).
  { intros <-. apply elem_of_dom in Hq. by apply is_fresh in Hq. }
  unfold set_kws_list. destruct (kws_truthy kws); simpl; [| done].
  unfold NamedTemporaryFile, tf_close, set_kws, os_remove; unfold_monad.
  simpl.
  match goal with |- context [write_items ?i ?t ?x] =>
    pose proof (write_items_result i t x) as Hr;
    pose proof (write_items_world i t x) as Hx;
    destruct (write_items i t x) as [[tf' | e] wx] end;
    simpl in *; subst wx; simpl.
  - destruct Hr as [_ Hn]. rewrite Hn.
    destruct (dec_set_kws _ _ _ _) as [msg | d']; simpl.
    + by rewrite !lookup_insert_ne.
    + rewrite lookup_insert_eq. simpl.
      by rewrite lookup_delete_ne, !lookup_insert_ne.
  - by rewrite lookup_insert_ne.
Qed.

End KeywordsMore.

Section Construction.

Context {D : Type} `{Decoder D} {C : Type} `{!ConfigEnv (D:=D) C}.

(** X16. With more than one search argument set in the configuration the
    constructor raises [ConfigError], before it changes the configuration
    or builds the decoder.  So an instance it returns was built from a
    configuration with at most one search argument set; it has no
    utterance in progress and both callback slots empty. *)
Theorem init_config_error (config : C) :
  (1 < length (search_arguments_set config) ->
   __init__ config =
     inl (ConfigError
            "more than one search argument was set in the Config object")) /\
  (forall s, __init__ config = inr s ->
     length (search_arguments_set config) <= 1 /\
     utt_ended s = true /\ speech_start_callback s = VNone /\
     hypothesis_callback s = VNone).
Proof.
  unfold __init__.
  destruct (search_arguments_set config) as [| a [| b r]]; simpl.
  - split; [lia |]. intros s [= <-]. repeat split; lia.
  - split; [lia |]. intros s [= <-]. repeat split; lia.
  - split; [done | done].
Qed.

(** X17. What the constructor does to the configuration before the decoder
    sees it.  With exactly one search argument set, the decoder is built
    from the configuration as given when [-hmm] and [-dict] are both
    non-empty, and from the configuration with the [-hmm] and [-dict]
    defaults filled in when either is empty or absent.  With no search
    argument set, the language-model path is set first; then the same
    rule applies to the configuration so obtained. *)
Theorem init_config_preparation (config : C) :
  let built c := inr (mkPocketSphinx VNone VNone _UTT_ENDED (dec_init c)) in
  let complete c :=
    str_truthy (get_string c "-hmm") = true /\
    str_truthy (get_string c "-dict") = true in
  (length (search_arguments_set config) = 1 -> complete config ->
   __init__ config = built config) /\
  (length (search_arguments_set config) = 1 -> ~ complete config ->
   __init__ config = built (set_hmm_and_dict_paths config)) /\
  (length (search_arguments_set config) = 0 ->
   complete (set_lm_path config) ->
   __init__ config = built (set_lm_path config)) /\
  (length (search_arguments_set config) = 0 ->
   ~ complete (set_lm_path config) ->
   __init__ config = built (set_hmm_and_dict_paths (set_lm_path config))).
Proof.
  unfold __init__; simpl. repeat split.
  - intros Hl [Hh Hd].
    destruct (search_arguments_set config) as [| a [| b r]];
      try discriminate Hl; simpl.
    by rewrite Hh, Hd.
  - intros Hl Hn.
    destruct (search_arguments_set config) as [| a [| b r]];
      try discriminate Hl; simpl.
    destruct (str_truthy (get_string config "-hmm")) eqn:Hh;
      destruct (str_truthy (get_string config "-dict")) eqn:Hd;
      simpl; try done.
    by destruct Hn.
  - intros Hl [Hh Hd].
    destruct (search_arguments_set config) as [| a r];
      try discriminate Hl; simpl.
    by rewrite Hh, Hd.
  - intros Hl Hn.
    destruct (search_arguments_set config) as [| a r];
      try discriminate Hl; simpl.
    destruct (str_truthy (get_string (set_lm_path config) "-hmm")) eqn:Hh;
      destruct (str_truthy (get_string (set_lm_path config) "-dict")) eqn:Hd;
      simpl; try done.
    by destruct Hn.
Qed.

End Construction.

(** * The further properties on the scripted decoder *)

Module MoreExamples.

Import Scripted Fixtures.

(** Starting a fresh instance and ending a listening one. *)
Lemma utterance_start_end_witness :
  (utt_ended (self fresh_world) = true /\
   utt_idle (self (snd (start_utt fresh_world))) = true) /\
  (utt_ended (self listening) = false /\
   log (snd (end_utt listening)) = (log listening ++ [EEndUtt])%list).
Proof.
  split; (split; [reflexivity |]).
  - rewrite (proj1 (proj2 (proj2 (utterance_start_end fresh_world))))
      by reflexivity.
    reflexivity.
  - rewrite (proj2 (proj2 (proj2 (utterance_start_end listening))))
      by reflexivity.
    reflexivity.
Defined.

(** Silence while listening is a quiet frame. *)
Lemma process_audio_quiet_frame_witness :
  utt_started (self listening) = false /\
  fst (process_audio silence false false true listening) = Return VNone.
Proof.
  split; [reflexivity |].
  apply (process_audio_quiet_frame silence false false true listening).
  left. split; reflexivity.
Defined.

(** Speech while listening moves the tracker to Started. *)
Lemma process_audio_transition_witness :
  reachable (C:=list string) listening /\
  _utterance_state
    (self (snd (process_audio (speech x61) false false true listening))) =
    _UTT_STARTED.
Proof.
  split; [apply Examples.listening_reachable |].
  apply (process_audio_transition (C:=list string) (speech x61) false false
           true listening Examples.listening_reachable).
Defined.

(** Mid-utterance the decoder has an utterance open. *)
Lemma decoder_utterance_tracked_witness :
  reachable (C:=list string) speaking /\
  decoder_utterance (log speaking) = Some true.
Proof.
  split; [apply Examples.speaking_reachable |].
  apply (decoder_utterance_tracked (C:=list string) speaking
           Examples.speaking_reachable).
Defined.

(** Ending an utterance with callbacks disabled calls nothing. *)
Lemma callbacks_only_when_enabled_witness :
  enables_callbacks (OpProcessAudio silence false false false) = false /\
  calls (log (run (OpProcessAudio silence false false false) speaking)) =
    calls (log speaking).
Proof.
  split; [reflexivity |].
  apply (callbacks_only_when_enabled
           (OpProcessAudio silence false false false) speaking).
  reflexivity.
Defined.

(** Silence, speech, silence on the scripted decoder. *)
Lemma silence_speech_silence_witness :
  utt_ended (self with_callbacks) = true /\
  calls (log (snd (batch_process [silence; speech x61; silence]
                     false false true with_callbacks))) =
    [(VFun 1, []); (VFun 2, [VStr "aa"])].
Proof.
  split; [reflexivity |].
  destruct (silence_speech_silence silence (speech x61) silence false false
              with_callbacks) as (_ & Hc & _); [reflexivity .. |].
  exact Hc.
Defined.

(** Registering one phrase on an empty disk. *)
Lemma set_kws_list_registers_witness :
  kws_truthy kw_hello = true /\
  files (snd (set_kws_list "kw1" kw_hello fresh_world)) = ∅.
Proof.
  split; [reflexivity |].
  destruct (set_kws_list_registers "kw1" kw_hello fresh_world eq_refl)
    as [_ Heq]; [repeat constructor |].
  rewrite Heq. reflexivity.
Defined.

(** A failing call leaves the file that was there alone. *)
Lemma set_kws_list_spares_files_witness :
  files cluttered !! "0" = Some "keep me" /\
  files (snd (set_kws_list "kw" kw_bad cluttered)) !! "0" = Some "keep me".
Proof.
  split; [reflexivity |].
  rewrite (set_kws_list_spares_files "kw" kw_bad cluttered "0");
    [reflexivity | by exists "keep me"].
Defined.

(** On an empty disk the file of a refused call is still there. *)
Lemma set_kws_list_temp_file_witness :
  kws_truthy kw_bad = true /\
  is_Some (files (snd (set_kws_list "kw" kw_bad fresh_world))
             !! fresh (dom (files fresh_world))).
Proof.
  split; [reflexivity |].
  apply (proj2 (proj2 (set_kws_list_temp_file "kw" kw_bad fresh_world
                         eq_refl))
           "threshold value of 'bad' for words 'test' is not a number").
  left. vm_compute. reflexivity.
Defined.

(** Two search modes at once are refused. *)
Lemma init_config_error_witness :
  1 < length (search_arguments_set Options.ambiguous) /\
  exists msg, __init__ (D:=state) Options.ambiguous = inl (ConfigError msg).
Proof.
  assert (Hl : 1 < length (search_arguments_set Options.ambiguous))
    by (vm_compute; lia).
  split; [exact Hl |].
  eexists.
  apply (proj1 (init_config_error (D:=state) Options.ambiguous)), Hl.
Defined.

(** The four cases of the constructor, on four configurations. *)
Lemma init_config_preparation_witness :
  (length (search_arguments_set Options.own_model) = 1 /\
   __init__ (D:=state) Options.own_model =
     inr (mkPocketSphinx VNone VNone _UTT_ENDED
            (dec_init Options.own_model))) /\
  (length (search_arguments_set kws_only) = 1 /\
   __init__ (D:=state) kws_only =
     inr (mkPocketSphinx VNone VNone _UTT_ENDED
            (dec_init (set_hmm_and_dict_paths kws_only)))) /\
  (length (search_arguments_set model_only) = 0 /\
   __init__ (D:=state) model_only =
     inr (mkPocketSphinx VNone VNone _UTT_ENDED
            (dec_init (set_lm_path model_only)))) /\
  (length (search_arguments_set nothing_set) = 0 /\
   __init__ (D:=state) nothing_set =
     inr (mkPocketSphinx VNone VNone _UTT_ENDED
            (dec_init (set_hmm_and_dict_paths (set_lm_path nothing_set))))).
Proof.
  split; [| split; [| split]]; (split; [reflexivity |]).
  - apply (proj1 (init_config_preparation (D:=state) Options.own_model));
      [reflexivity | split; reflexivity].
  - apply (proj1 (proj2 (init_config_preparation (D:=state) kws_only)));
      [reflexivity | intros [Hh _]; discriminate Hh].
  - apply (proj1 (proj2 (proj2
             (init_config_preparation (D:=state) model_only))));
      [reflexivity | split; reflexivity].
  - apply (proj2 (proj2 (proj2
             (init_config_preparation (D:=state) nothing_set))));
      [reflexivity | intros [Hh _]; discriminate Hh].
Defined.

(** A list whose bad threshold is overridden later registers like the
    dict it normalizes to. *)
Example overridden_threshold :
  dict_of_pairs kw_pairs = [("go", VFloat 1 (-10)); ("stop", VInt 1)] /\
  fst (set_kws_list "kw" (KList kw_pairs) fresh_world) = Return tt.
Proof. vm_compute. by split. Qed.

End MoreExamples.

(** * Callables that test false *)

Module FalseCallables.

Import Scripted Fixtures.





End FalseCallables.
